(** * Pixel-difference overlay of [src/src/App.tsx]

    A shallow embedding of [generateDifferenceImage] and of its helper
    [getImageData], followed by the properties of the comparison loop:
    how a pixel is classified, what the overlay holds, the bounds on the
    changed-pixel count, the behaviour on buffers of different sizes and
    on empty images.

    Conventions of the embedding.
    - A pixel buffer ([ImageData.data], a [Uint8ClampedArray]) is a
      [list Z] in RGBA order, four entries per pixel, rows first.
    - Reading a typed array past its end gives [undefined]: the read is
      stdpp's list lookup, [None] standing for [undefined].
    - Writing a typed array past its end does nothing, which is what
      stdpp's list insert does; a stored value is first converted by the
      clamping conversion of [Uint8ClampedArray].
    - The numbers the loop computes are small integers or [NaN]; they are
      values of [jsnum].
    - An [HTMLImageElement] is represented by its decoded bitmap. *)

From Stdlib Require Import ZArith QArith Lia Lqa String.
From stdpp Require Import base list.

Local Open Scope nat_scope.

(** ** JavaScript numbers as the loop sees them *)

Inductive jsnum : Type :=
| Num (z : Z)
| NaN.

(** [ToNumber] of an element read: [undefined] becomes [NaN]. *)
Definition toNumber (v : option Z) : jsnum :=
  match v with
  | Some z => Num z
  | None => NaN
  end.

(** [a - b] on the operands as read from the buffers. *)
Definition js_sub (a b : option Z) : jsnum :=
  match toNumber a, toNumber b with
  | Num x, Num y => Num (x - y)
  | _, _ => NaN
  end.

Definition Math_abs (a : jsnum) : jsnum :=
  match a with
  | Num x => Num (Z.abs x)
  | NaN => NaN
  end.

(** [a > t]: every comparison with [NaN] is false. *)
Definition js_gt (a : jsnum) (t : Z) : bool :=
  match a with
  | Num x => (t <? x)%Z
  | NaN => false
  end.

(** Conversion applied by a [Uint8ClampedArray] to a stored value:
    [undefined] and [NaN] become 0, a number is clamped to 0..255. *)
Definition toUint8Clamp (v : option Z) : Z :=
  match v with
  | Some z => Z.max 0 (Z.min 255 z)
  | None => 0%Z
  end.

(** [d[i] = v] on a [Uint8ClampedArray]. *)
Definition store (d : list Z) (i : nat) (v : option Z) : list Z :=
  <[i := toUint8Clamp v]> d.

(** ** Images, canvases and outcomes *)

Record ImageData : Type := mkImageData {
  width : nat;
  height : nat;
  data : list Z
}.

Record Canvas : Type := mkCanvas {
  canvas_width : nat;
  canvas_height : nat;
  bitmap : list Z
}.

(** What a handler can throw: a [DOMException] of the canvas API, named,
    or the [Error] that [getImageData] constructs itself. *)
Inductive exn : Type :=
| DOMException (name : string)
| JsError (message : string).

Definition exnName (e : exn) : string :=
  match e with
  | DOMException n => n
  | JsError _ => "Error"%string
  end.

Inductive outcome (A : Type) : Type :=
| Returned (a : A)
| Thrown (e : exn).

Arguments Returned {A} a.
Arguments Thrown {A} e.

Definition bind {A B : Type} (m : outcome A) (k : A -> outcome B) : outcome B :=
  match m with
  | Returned a => k a
  | Thrown e => Thrown e
  end.

Notation "x <- m ;; k" := (bind m (fun x => k))
  (at level 100, m at next level, right associativity).

(** The values computed from one comparison. [diffData] is the overlay,
    [totalChangedPixels] the loop's counter, [totalPixels] the product
    [canvas.width * canvas.height]. *)
Record DiffResult : Type := mkDiffResult {
  diffData : ImageData;
  totalChangedPixels : nat;
  totalPixels : nat
}.

(** [totalChangedPixels / (canvas.width * canvas.height)], as an exact
    rational; the source multiplies it by 100. *)
Definition changeRatio (r : DiffResult) : Q :=
  (inject_Z (Z.of_nat (totalChangedPixels r))
   / inject_Z (Z.of_nat (totalPixels r)))%Q.

Definition deforestationPercentage (r : DiffResult) : Q :=
  (changeRatio r * 100)%Q.

(** A buffer as [getImageData] delivers it: four bytes per pixel. *)
Definition sizedb (img : ImageData) : bool :=
  length (data img) =? 4 * (width img * height img).

Definition bytesb (d : list Z) : bool :=
  forallb (fun z => (0 <=? z)%Z && (z <=? 255)%Z) d.

Definition wfb (img : ImageData) : bool := sizedb img && bytesb (data img).

Definition emptyb (img : ImageData) : bool :=
  (width img =? 0) || (height img =? 0).

(** ** The comparison loop *)

Section Loop.

(** [const threshold = 30] in the source; the loop is written over the
    constant so that it can be varied. *)
Variable threshold : Z.

Variables beforeData afterData : list Z.

Definition rDiff (i : nat) : jsnum :=
  Math_abs (js_sub (beforeData !! i) (afterData !! i)).
Definition gDiff (i : nat) : jsnum :=
  Math_abs (js_sub (beforeData !! (i + 1)) (afterData !! (i + 1))).
Definition bDiff (i : nat) : jsnum :=
  Math_abs (js_sub (beforeData !! (i + 2)) (afterData !! (i + 2))).

(** The guard of the [if] in the loop body. *)
Definition pixelChanged (i : nat) : bool :=
  js_gt (rDiff i) threshold || js_gt (gDiff i) threshold
  || js_gt (bDiff i) threshold.

(** One iteration, on the pair of the overlay buffer and the counter. *)
Definition loopBody (i : nat) (st : list Z * nat) : list Z * nat :=
  let '(d, total) := st in
  if pixelChanged i then
    let d := store d i (Some 255%Z) in
    let d := store d (i + 1) (Some 0%Z) in
    let d := store d (i + 2) (Some 0%Z) in
    let d := store d (i + 3) (Some 128%Z) in
    (d, S total)
  else
    let d := store d i (afterData !! i) in
    let d := store d (i + 1) (afterData !! (i + 1)) in
    let d := store d (i + 2) (afterData !! (i + 2)) in
    let d := store d (i + 3) (afterData !! (i + 3)) in
    (d, total).

(** [for (let i = 0; i < beforeImgData.data.length; i += 4)], from [i]
    on, with a bound on the number of iterations. *)
Fixpoint diffLoop (fuel : nat) (i : nat) (st : list Z * nat) : list Z * nat :=
  match fuel with
  | O => st
  | S fuel' =>
      if i <? length beforeData
      then diffLoop fuel' (i + 4) (loopBody i st)
      else st
  end.

End Loop.

(** ** The canvas API the handler calls *)

Definition IndexSizeError : exn := DOMException "IndexSizeError".

Definition transparentBlack (w h : nat) : list Z := repeat 0%Z (4 * (w * h)).

(** Assigning [canvas.width] or [canvas.height] clears the bitmap. *)
Definition setWidth (c : Canvas) (w : nat) : Canvas :=
  mkCanvas w (canvas_height c) (transparentBlack w (canvas_height c)).

Definition setHeight (c : Canvas) (h : nat) : Canvas :=
  mkCanvas (canvas_width c) h (transparentBlack (canvas_width c) h).

(** [ctx.createImageData(sw, sh)]: a transparent black buffer; a zero
    dimension raises [IndexSizeError]. *)
Definition createImageData (sw sh : nat) : outcome ImageData :=
  if (sw =? 0) || (sh =? 0) then Thrown IndexSizeError
  else Returned (mkImageData sw sh (transparentBlack sw sh)).

(** [ctx.getImageData(0, 0, canvas.width, canvas.height)]: the whole
    bitmap; a zero dimension raises [IndexSizeError]. *)
Definition ctx_getImageData (c : Canvas) : outcome ImageData :=
  if (canvas_width c =? 0) || (canvas_height c =? 0) then Thrown IndexSizeError
  else Returned (mkImageData (canvas_width c) (canvas_height c) (bitmap c)).

Section Platform.

(** Whether [getContext('2d')] yields a context. *)
Variable has2d : bool.

(** The pixels of the shared canvas after [ctx.drawImage(img, 0, 0)] and
    after [ctx.putImageData(d, 0, 0)]. How the platform blends and
    stores them is left open: nothing below depends on it. *)
Variable composite : Canvas -> ImageData -> list Z.
Variable paint : Canvas -> ImageData -> list Z.

Definition drawImage (c : Canvas) (img : ImageData) : Canvas :=
  mkCanvas (canvas_width c) (canvas_height c) (composite c img).

Definition putImageData (c : Canvas) (d : ImageData) : Canvas :=
  mkCanvas (canvas_width c) (canvas_height c) (paint c d).

(** [getImageData(img)]: a scratch canvas of the image's size, the image
    drawn at its origin, the whole canvas read back. Drawing a decoded
    image on a blank canvas of its own size leaves its bitmap there. *)
Definition getImageData (img : ImageData) : outcome ImageData :=
  let canvas := mkCanvas (width img) (height img)
                  (transparentBlack (width img) (height img)) in
  if has2d then
    let canvas :=
      mkCanvas (canvas_width canvas) (canvas_height canvas) (data img) in
    ctx_getImageData canvas
  else Thrown (JsError "Could not get context").

(** The body of [afterImg.onload], once both images are decoded: the
    shared canvas goes in and comes out, next to the values computed.
    What the handler then derives for display (impact figures, the
    prediction series) is left out. *)
Definition afterImg_onload (threshold : Z) (canvas : Canvas)
    (beforeImg afterImg : ImageData) : outcome (Canvas * DiffResult) :=
  let canvas := setWidth canvas (width beforeImg) in
  let canvas := setHeight canvas (height beforeImg) in
  let canvas := drawImage canvas afterImg in
  beforeImgData <- getImageData beforeImg ;;
  afterImgData <- getImageData afterImg ;;
  diffData0 <- createImageData (canvas_width canvas) (canvas_height canvas) ;;
  let '(d, total) :=
    diffLoop threshold (data beforeImgData) (data afterImgData)
      (length (data beforeImgData)) 0 (data diffData0, 0) in
  let diffData := mkImageData (width diffData0) (height diffData0) d in
  let canvas := putImageData canvas diffData in
  Returned (canvas,
            mkDiffResult diffData total
              (canvas_width canvas * canvas_height canvas)).

(** [generateDifferenceImage]: nothing happens without both images, the
    canvas and its context; otherwise the handler above runs with the
    threshold of the source. *)
Definition generateDifferenceImage (beforeImage afterImage : option ImageData)
    (canvasRef : option Canvas) : option (outcome (Canvas * DiffResult)) :=
  match beforeImage, afterImage, canvasRef with
  | Some beforeImg, Some afterImg, Some canvas =>
      if has2d then Some (afterImg_onload 30 canvas beforeImg afterImg)
      else None
  | _, _, _ => None
  end.

End Platform.

(** The colour written at a flagged pixel, channel by channel. *)
Definition flagColor : list Z := [255; 0; 0; 128]%Z.

(** ** The loop, pixel by pixel *)

(** The iterations of the loop over the first [n] pixels, in order. *)
Definition scan (threshold : Z) (bd ad : list Z) (n : nat)
    (st : list Z * nat) : list Z * nat :=
  foldl (fun st p => loopBody threshold bd ad (4 * p) st) st (seq 0 n).

(** How many iterations a buffer of [len] entries takes. *)
Definition iterations (len : nat) : nat := (len + 3) / 4.

(** Among the first [n] pixels, those for which the guard holds. *)
Fixpoint countChanged (threshold : Z) (bd ad : list Z) (n : nat) : nat :=
  match n with
  | O => 0
  | S k =>
      countChanged threshold bd ad k
      + (if pixelChanged threshold bd ad (4 * k) then 1 else 0)
  end.

(** The four entries of pixel [p] of a buffer, when it has them all. *)
Definition pixelAt (d : list Z) (p : nat) : option (Z * Z * Z * Z) :=
  match d !! (4 * p), d !! (4 * p + 1), d !! (4 * p + 2), d !! (4 * p + 3) with
  | Some r, Some g, Some b, Some a => Some (r, g, b, a)
  | _, _, _, _ => None
  end.

(** Both buffers hold a sample at entry [j], and the two differ in absolute
    value by more than [t]. *)
Definition differsBeyond (t : Z) (bd ad : list Z) (j : nat) : Prop :=
  exists x y, bd !! j = Some x /\ ad !! j = Some y /\ (t < Z.abs (x - y))%Z.

(** The four reads [d[i]], [d[i + 1]], [d[i + 2]], [d[i + 3]] of an
    iteration, [None] for [undefined]. *)
Definition reads (d : list Z) (i : nat)
    : option Z * option Z * option Z * option Z :=
  (d !! i, d !! (i + 1), d !! (i + 2), d !! (i + 3)).

(** The state of the loop when it ends, and the values the handler
    computes from it, for images that are not empty. *)
Definition scanned (threshold : Z) (b a : ImageData) : list Z * nat :=
  scan threshold (data b) (data a) (iterations (length (data b)))
    (transparentBlack (width b) (height b), 0).

Definition resultOf (threshold : Z) (b a : ImageData) : DiffResult :=
  mkDiffResult
    (mkImageData (width b) (height b) (scanned threshold b a).1)
    (scanned threshold b a).2
    (width b * height b).

(** An outcome without the canvas it leaves behind. *)
Definition resultOnly (o : outcome (Canvas * DiffResult)) : outcome DiffResult :=
  match o with
  | Returned (_, r) => Returned r
  | Thrown e => Thrown e
  end.

(** The linear index of column [x], row [y] in a grid [w] wide. *)
Definition gridIndex (w x y : nat) : nat := y * w + x.

(** Whether column [x], row [y] lies within an image. *)
Definition inBounds (img : ImageData) (x y : nat) : bool :=
  (x <? width img) && (y <? height img).

(** ** Small images to run the code on *)

Definition px (r g b a : Z) : list Z := [r; g; b; a].

Definition noBlend : Canvas -> ImageData -> list Z := fun c _ => bitmap c.
Definition overwrite : Canvas -> ImageData -> list Z := fun _ d => data d.
Definition staleCanvas : Canvas := mkCanvas 1 1 (px 9 9 9 9).

Definition run (threshold : Z) (b a : ImageData) : outcome (Canvas * DiffResult) :=
  afterImg_onload true noBlend overwrite threshold staleCanvas b a.

Definition img1x1 (r g b a : Z) : ImageData := mkImageData 1 1 (px r g b a).

Definition grey2x1 : ImageData :=
  mkImageData 2 1 (px 200 200 200 255 ++ px 200 200 200 255).

Definition grey1x1 : ImageData := img1x1 200 200 200 255.

(** [grey1x1] widened to two columns with a transparent black pixel. *)
Definition grey1x1_padded : ImageData :=
  mkImageData 2 1 (px 200 200 200 255 ++ px 0 0 0 0).

Definition emptyImage : ImageData := mkImageData 0 0 [].

Definition flat3x3 : ImageData := mkImageData 3 3 (repeat 7%Z 36).

(** One column and two rows against two columns and one row. *)
Definition tall1x2 : ImageData :=
  mkImageData 1 2 (px 10 10 10 255 ++ px 20 20 20 255).

Definition wide2x1 : ImageData :=
  mkImageData 2 1 (px 10 10 10 255 ++ px 90 90 90 255).

Definition dark2x2 : ImageData :=
  mkImageData 2 2 (px 0 10 10 255 ++ px 0 20 20 255
                   ++ px 0 30 30 255 ++ px 0 40 40 255).

Definition bright2x2 : ImageData :=
  mkImageData 2 2 (px 255 10 10 255 ++ px 255 20 20 255
                   ++ px 255 30 30 255 ++ px 255 40 40 255).

(** ** Further notions used to state properties of the loop *)

(** Two buffers that agree on every entry but the alpha ones. *)
Definition sameColour (d d' : list Z) : Prop :=
  length d = length d'
  /\ forall j, j mod 4 <> 3 -> d !! j = d' !! j.

(** One image on top of another of the same width. *)
Definition vstack (top bottom : ImageData) : ImageData :=
  mkImageData (width top) (height top + height bottom)
    (data top ++ data bottom).

(** Samples that are not bytes, as no canvas would deliver them. *)
Definition rawImage : ImageData := mkImageData 1 1 [300; -5; 7; 999]%Z.

Definition greyMixed2x1 : ImageData :=
  mkImageData 2 1 (px 0 0 0 255 ++ px 200 200 200 7).

(** [grey1x1] with another alpha sample. *)
Definition greyClear1x1 : ImageData := img1x1 200 200 200 0.

(** [grey1x1] with a second row that a grid of one row never reaches. *)
Definition grey1x2 : ImageData :=
  mkImageData 1 2 (px 200 200 200 255 ++ px 1 2 3 4).

(** ** The impact figures derived from the count *)

(** [deforestationPercentage * 2.5], [* 1.8] and [* 1.5], the three fields
    handed to [setEnvironmentalImpact], as exact rationals. *)
Definition carbonImpact (r : DiffResult) : Q :=
  (deforestationPercentage r * (5 # 2))%Q.

Definition biodiversityLoss (r : DiffResult) : Q :=
  (deforestationPercentage r * (9 # 5))%Q.

Definition waterImpact (r : DiffResult) : Q :=
  (deforestationPercentage r * (3 # 2))%Q.

(** ** The comparison slider *)

(** The numbers of [handleSliderMove]: exact rationals in place of doubles,
    with the two infinities and [NaN] that a division by zero produces. *)
Inductive jsreal : Type :=
| Fin (q : Q)
| PosInf
| NegInf
| NotANumber.

(** [x / y] on finite operands. A zero divisor gives an infinity of the
    sign of [x], or [NaN] when [x] is zero too; a rectangle's width is
    never negative zero. *)
Definition js_div (x y : Q) : jsreal :=
  if Qeq_bool y 0 then
    if Qeq_bool x 0 then NotANumber
    else if Qle_bool 0 x then PosInf else NegInf
  else Fin (x / y).

(** [x * k] for a positive finite [k]. *)
Definition js_scale (x : jsreal) (k : Q) : jsreal :=
  match x with
  | Fin q => Fin (q * k)
  | other => other
  end.

(** [Math.max(x, k)] and [Math.min(x, k)] for a finite [k]: [NaN] if [x]
    is [NaN]. *)
Definition Math_max (x : jsreal) (k : Q) : jsreal :=
  match x with
  | Fin q => Fin (if Qle_bool q k then k else q)
  | PosInf => PosInf
  | NegInf => Fin k
  | NotANumber => NotANumber
  end.

Definition Math_min (x : jsreal) (k : Q) : jsreal :=
  match x with
  | Fin q => Fin (if Qle_bool q k then q else k)
  | PosInf => Fin k
  | NegInf => NegInf
  | NotANumber => NotANumber
  end.

(** What [getBoundingClientRect] tells of the container. *)
Record DOMRect : Type := mkDOMRect {
  rect_left : Q;
  rect_width : Q
}.

(** [handleSliderMove(clientX)]: the new slider position, given
    [containerRef.current] and the position so far. *)
Definition handleSliderMove (container : option DOMRect) (clientX : Q)
    (sliderPosition : jsreal) : jsreal :=
  match container with
  | Some containerRect =>
      let offsetX := (clientX - rect_left containerRect)%Q in
      let percentage :=
        Math_min
          (Math_max
             (js_scale (js_div offsetX (rect_width containerRect)) 100) 0)
          100 in
      percentage
  | None => sliderPosition
  end.

(** A position that can be shown: a finite number from 0 to 100. *)
Definition onTrack (x : jsreal) : Prop :=
  match x with
  | Fin q => (0 <= q <= 100)%Q
  | _ => False
  end.

Definition sameReal (x y : jsreal) : Prop :=
  match x, y with
  | Fin p, Fin q => (p == q)%Q
  | PosInf, PosInf | NegInf, NegInf | NotANumber, NotANumber => True
  | _, _ => False
  end.

Definition lessEq (x y : jsreal) : Prop :=
  match x, y with
  | Fin p, Fin q => (p <= q)%Q
  | _, _ => False
  end.

(** ** Dragging the slider *)

(** The slider position and the listeners that [handleMouseDown] has put
    on the document. Each call of [handleMouseDown] creates its own pair of
    closures [handleMouseMove] and [handleMouseUp]; a pair is known by a
    number. *)
Record Ui : Type := mkUi {
  sliderPosition : jsreal;
  mousemoveListeners : list nat;
  mouseupListeners : list nat;
  nextListener : nat
}.

(** What the user does; a pointer event comes with [containerRef.current]
    as it is when the event is handled. *)
Inductive UiEvent : Type :=
| MouseDown
| MouseMove (clientX : Q) (container : option DOMRect)
| MouseUp
| TouchMove (touches : list Q) (container : option DOMRect).

Definition setSliderPosition (ui : Ui) (position : jsreal) : Ui :=
  mkUi position (mousemoveListeners ui) (mouseupListeners ui)
    (nextListener ui).

(** [handleMouseDown]: a new pair of listeners on the document. *)
Definition handleMouseDown (ui : Ui) : Ui :=
  mkUi (sliderPosition ui)
    (mousemoveListeners ui ++ [nextListener ui])
    (mouseupListeners ui ++ [nextListener ui])
    (S (nextListener ui)).

(** The closure [handleMouseMove] of any pair. *)
Definition handleMouseMove (clientX : Q) (container : option DOMRect)
    (ui : Ui) : Ui :=
  setSliderPosition ui
    (handleSliderMove container clientX (sliderPosition ui)).

(** The closure [handleMouseUp] of pair [id]: both listeners of the pair are
    removed. *)
Definition handleMouseUp (id : nat) (ui : Ui) : Ui :=
  mkUi (sliderPosition ui)
    (filter (fun j => j <> id) (mousemoveListeners ui))
    (filter (fun j => j <> id) (mouseupListeners ui))
    (nextListener ui).

(** [handleTouchMove]: the first touch moves the slider; without a touch
    the read of [clientX] throws and nothing is set. *)
Definition handleTouchMove (touches : list Q) (container : option DOMRect)
    (ui : Ui) : Ui :=
  match touches with
  | clientX :: _ =>
      setSliderPosition ui
        (handleSliderMove container clientX (sliderPosition ui))
  | [] => ui
  end.

(** One event: the document runs every listener registered for it when the
    event is dispatched. *)
Definition uiStep (ui : Ui) (ev : UiEvent) : Ui :=
  match ev with
  | MouseDown => handleMouseDown ui
  | MouseMove clientX container =>
      foldl (fun u _ => handleMouseMove clientX container u) ui
        (mousemoveListeners ui)
  | MouseUp =>
      foldl (fun u id => handleMouseUp id u) ui (mouseupListeners ui)
  | TouchMove touches container => handleTouchMove touches container ui
  end.

(** [useState(50)] and a document without listeners. *)
Definition initialUi : Ui := mkUi (Fin 50) [] [] 0.

Definition uiRun (events : list UiEvent) : Ui := foldl uiStep initialUi events.

(** An event whose container, if there is one, has a positive width. *)
Definition measurable (ev : UiEvent) : Prop :=
  match ev with
  | MouseMove _ (Some rect) | TouchMove _ (Some rect) =>
      (0 < rect_width rect)%Q
  | _ => True
  end.

Definition container400 : DOMRect := mkDOMRect 100 400.

Definition collapsed : DOMRect := mkDOMRect 100 0.

(** ** The state of the component and the submission *)

(** The state variables that uploading and submitting touch. An image is
    the data URL read from the file; the impact figures are the triple of
    carbon, biodiversity and water. *)
Record AppState : Type := mkAppState {
  beforeImage : option string;
  afterImage : option string;
  resultImage : option string;
  deforestationRate : option Q;
  loading : bool;
  error : option string;
  environmentalImpact : option (Q * Q * Q)
}.

(** [useState(null)] throughout, [useState(false)] for [loading]. *)
Definition initialApp : AppState :=
  mkAppState None None None None false None None.

Definition setBeforeImage (st : AppState) (v : option string) : AppState :=
  mkAppState v (afterImage st) (resultImage st) (deforestationRate st)
    (loading st) (error st) (environmentalImpact st).

Definition setAfterImage (st : AppState) (v : option string) : AppState :=
  mkAppState (beforeImage st) v (resultImage st) (deforestationRate st)
    (loading st) (error st) (environmentalImpact st).

Definition setResultImage (st : AppState) (v : option string) : AppState :=
  mkAppState (beforeImage st) (afterImage st) v (deforestationRate st)
    (loading st) (error st) (environmentalImpact st).

Definition setDeforestationRate (st : AppState) (v : option Q) : AppState :=
  mkAppState (beforeImage st) (afterImage st) (resultImage st) v
    (loading st) (error st) (environmentalImpact st).

Definition setLoading (st : AppState) (v : bool) : AppState :=
  mkAppState (beforeImage st) (afterImage st) (resultImage st)
    (deforestationRate st) v (error st) (environmentalImpact st).

Definition setError (st : AppState) (v : option string) : AppState :=
  mkAppState (beforeImage st) (afterImage st) (resultImage st)
    (deforestationRate st) (loading st) v (environmentalImpact st).

Definition setEnvironmentalImpact (st : AppState) (v : option (Q * Q * Q))
    : AppState :=
  mkAppState (beforeImage st) (afterImage st) (resultImage st)
    (deforestationRate st) (loading st) (error st) v.

(** [!image] is false for a string that is not empty. *)
Definition truthy (image : option string) : bool :=
  match image with
  | Some url => negb (String.eqb url EmptyString)
  | None => false
  end.

(** The second argument of [handleImageUpload]: ['before'] or ['after']. *)
Inductive ImageType : Type :=
| type_before
| type_after.

(** [handleImageUpload(event, type)], with the file reader's [onload]:
    [file] is the data URL read from [event.target.files[0]], if there is
    a file. *)
Definition handleImageUpload (file : option string) (type : ImageType)
    (st : AppState) : AppState :=
  match file with
  | Some result =>
      match type with
      | type_before => setBeforeImage st (Some result)
      | type_after => setAfterImage st (Some result)
      end
  | None => st
  end.

(** The [try] block of [handleSubmit]. The call [generateDifferenceImage()]
    installs the load handlers and returns; [random] is the value of
    [Math.random()]. *)
Definition submitBody (st : AppState) (random : Q) : outcome AppState :=
  let rate := (random * 30)%Q in
  Returned (setDeforestationRate st (Some rate)).

(** [handleSubmit]. *)
Definition handleSubmit (st : AppState) (random : Q) : AppState :=
  if negb (truthy (beforeImage st)) || negb (truthy (afterImage st)) then st
  else
    let st := setLoading st true in
    let st := setError st None in
    let st :=
      match submitBody st random with
      | Returned st' => st'
      | Thrown _ =>
          setError st
            (Some "An error occurred while processing the images"%string)
      end in
    setLoading st false.

Section Loads.

Variable has2d : bool.
Variable composite : Canvas -> ImageData -> list Z.
Variable paint : Canvas -> ImageData -> list Z.

(** [canvas.toDataURL()]. *)
Variable toDataURL : Canvas -> string.

(** The load handlers that [generateDifferenceImage] installed, run once
    the browser has decoded the two images; an image that does not decode
    never fires its handler and stands as [None]. An exception of a
    handler is caught by nobody and leaves the state as it is. *)
Definition imagesLoaded (st : AppState) (beforeImg afterImg : option ImageData)
    (canvasRef : option Canvas) : AppState :=
  match generateDifferenceImage has2d composite paint
          beforeImg afterImg canvasRef with
  | Some (Returned (canvas, r)) =>
      let st := setResultImage st (Some (toDataURL canvas)) in
      setEnvironmentalImpact st
        (Some (carbonImpact r, biodiversityLoss r, waterImpact r))
  | Some (Thrown _) => st
  | None => st
  end.

End Loads.

Definition pngOf : Canvas -> string := fun _ => "data:image/png;base64,"%string.

Definition bothUploaded : AppState :=
  handleImageUpload (Some "data:,after"%string) type_after
    (handleImageUpload (Some "data:,before"%string) type_before initialApp).

Definition dragTwice : list UiEvent :=
  [MouseDown; MouseMove 200 (Some container400); MouseDown;
   MouseMove 900 (Some container400); MouseUp;
   TouchMove [50%Q] (Some container400); TouchMove [] None].

(** ** Runs on small images *)

Example boundary_equal :
  run 30 (img1x1 100 7 7 255) (img1x1 130 7 7 255)
  = Returned (mkCanvas 1 1 (px 130 7 7 255),
              mkDiffResult (img1x1 130 7 7 255) 0 1).
Proof. reflexivity. Qed.

Example boundary_above :
  run 30 (img1x1 100 7 7 255) (img1x1 131 7 7 255)
  = Returned (mkCanvas 1 1 (px 255 0 0 128),
              mkDiffResult (img1x1 255 0 0 128) 1 1).
Proof. reflexivity. Qed.

Example full_change :
  exists c r, run 30 dark2x2 bright2x2 = Returned (c, r)
    /\ totalChangedPixels r = 4
    /\ (changeRatio r == 1)%Q
    /\ data (diffData r) = flagColor ++ flagColor ++ flagColor ++ flagColor.
Proof. do 2 eexists. repeat split. Qed.

Example alpha_ignored :
  resultOnly (run 30 (img1x1 5 5 5 0) (img1x1 5 5 5 255))
  = Returned (mkDiffResult (img1x1 5 5 5 255) 0 1).
Proof. reflexivity. Qed.

(** Row 1 of a grid one column wide lies outside an image of one row, but
    its index lies inside that image's buffer: the loop reads the pixel of
    column 1, row 0 there, and flags the position. *)
Example outside_bounds_inside_buffer :
  inBounds wide2x1 0 1 = false
  /\ reads (data wide2x1) (4 * gridIndex (width tall1x2) 0 1)
     = (Some 90, Some 90, Some 90, Some 255)%Z
  /\ resultOnly (run 30 tall1x2 wide2x1)
     = Returned (mkDiffResult
                  (mkImageData 1 2 (px 10 10 10 255 ++ px 255 0 0 128)) 1 2).
Proof. repeat split. Qed.

(** ** Facts about the loop *)

Lemma iterations_lt len k : k < iterations len <-> 4 * k < len.
Proof.
  unfold iterations.
  pose proof (Nat.div_mod_eq (len + 3) 4) as E.
  pose proof (Nat.mod_upper_bound (len + 3) 4) as B.
  lia.
Qed.

Lemma iterations_le len : iterations len <= len.
Proof.
  pose proof (iterations_lt len len) as H.
  destruct (le_lt_dec (iterations len) len) as [Hle|Hlt]; [exact Hle|].
  apply H in Hlt. lia.
Qed.

Lemma iterations_exact n : iterations (4 * n) = n.
Proof.
  pose proof (iterations_lt (4 * n) n) as Hup.
  destruct n as [|n]; [lia|].
  pose proof (iterations_lt (4 * S n) n) as Hlow. lia.
Qed.

Section LoopFacts.

Variable threshold : Z.
Variables bd ad : list Z.

Lemma scan_S n st :
  scan threshold bd ad (S n) st
  = loopBody threshold bd ad (4 * n) (scan threshold bd ad n st).
Proof.
  unfold scan. rewrite seq_S, foldl_app. reflexivity.
Qed.

Lemma diffLoop_S fuel i st :
  diffLoop threshold bd ad (S fuel) i st
  = if i <? length bd
    then diffLoop threshold bd ad fuel (i + 4) (loopBody threshold bd ad i st)
    else st.
Proof. reflexivity. Qed.

(** The loop runs out of indices before it runs out of fuel. *)
Lemma diffLoop_scan_from fuel : forall k m st,
  iterations (length bd) = k + m ->
  m <= fuel ->
  diffLoop threshold bd ad fuel (4 * k) st
  = foldl (fun st p => loopBody threshold bd ad (4 * p) st) st (seq k m).
Proof.
  induction fuel as [|fuel IH]; intros k m st Hm Hfuel.
  - assert (m = 0) as -> by lia. reflexivity.
  - pose proof (iterations_lt (length bd) k) as Hk.
    rewrite diffLoop_S. destruct (4 * k <? length bd) eqn:Hlt.
    + apply Nat.ltb_lt in Hlt.
      destruct m as [|m]; [lia|].
      cbn [seq foldl]. replace (4 * k + 4) with (4 * S k) by lia.
      apply IH; lia.
    + apply Nat.ltb_ge in Hlt.
      assert (m = 0) as -> by lia. reflexivity.
Qed.

Lemma diffLoop_scan st :
  diffLoop threshold bd ad (length bd) 0 st
  = scan threshold bd ad (iterations (length bd)) st.
Proof.
  unfold scan.
  apply (diffLoop_scan_from (length bd) 0 (iterations (length bd)) st).
  - reflexivity.
  - apply iterations_le.
Qed.

(** More fuel changes nothing: the loop has terminated. *)
Lemma diffLoop_fuel fuel st :
  length bd <= fuel ->
  diffLoop threshold bd ad fuel 0 st
  = diffLoop threshold bd ad (length bd) 0 st.
Proof.
  intros Hfuel. rewrite diffLoop_scan. unfold scan.
  apply (diffLoop_scan_from fuel 0 (iterations (length bd)) st).
  - reflexivity.
  - pose proof (iterations_le (length bd)). lia.
Qed.

Lemma store_length d i v : length (store d i v) = length d.
Proof. unfold store. apply length_insert. Qed.

Lemma store_lookup_ne d i j v : i <> j -> store d i v !! j = d !! j.
Proof. intros Hne. unfold store. by apply list_lookup_insert_ne. Qed.

Lemma store_lookup_eq d i v :
  i < length d -> store d i v !! i = Some (toUint8Clamp v).
Proof. intros Hi. unfold store. by apply list_lookup_insert_eq. Qed.

Lemma loopBody_length i st :
  length (loopBody threshold bd ad i st).1 = length st.1.
Proof.
  destruct st as [d c]. unfold loopBody.
  destruct (pixelChanged threshold bd ad i); simpl;
    rewrite !store_length; reflexivity.
Qed.

Lemma loopBody_count i st :
  (loopBody threshold bd ad i st).2
  = st.2 + (if pixelChanged threshold bd ad i then 1 else 0).
Proof.
  destruct st as [d c]. unfold loopBody.
  destruct (pixelChanged threshold bd ad i); simpl; lia.
Qed.

(** An iteration touches the four entries of its own pixel only. *)
Lemma loopBody_lookup_other i j st :
  j < i \/ i + 4 <= j ->
  (loopBody threshold bd ad i st).1 !! j = st.1 !! j.
Proof.
  intros Hj. destruct st as [d c]. unfold loopBody.
  destruct (pixelChanged threshold bd ad i); simpl;
    rewrite !store_lookup_ne by lia; reflexivity.
Qed.

Lemma loopBody_lookup_at i c st :
  c < 4 -> i + c < length st.1 ->
  (loopBody threshold bd ad i st).1 !! (i + c)
  = Some (if pixelChanged threshold bd ad i
          then nth c flagColor 0%Z
          else toUint8Clamp (ad !! (i + c))).
Proof.
  intros Hc Hlen. destruct st as [d k]. simpl in Hlen. unfold loopBody.
  assert (c = 0 \/ c = 1 \/ c = 2 \/ c = 3) as Hcases by lia.
  destruct (pixelChanged threshold bd ad i); simpl;
    destruct Hcases as [-> | [-> | [-> | ->]]];
    rewrite ?Nat.add_0_r in *;
    repeat (rewrite store_lookup_ne by lia);
    (rewrite store_lookup_eq by (rewrite ?store_length; lia));
    reflexivity.
Qed.

Lemma scan_length n st :
  length (scan threshold bd ad n st).1 = length st.1.
Proof.
  induction n as [|n IH]; [reflexivity|].
  rewrite scan_S, loopBody_length. exact IH.
Qed.

Lemma scan_count n st :
  (scan threshold bd ad n st).2 = st.2 + countChanged threshold bd ad n.
Proof.
  induction n as [|n IH]; [simpl; unfold scan; simpl; lia|].
  rewrite scan_S, loopBody_count, IH. cbn [countChanged]. lia.
Qed.

(** Entries from pixel [n] on are still those of the initial buffer. *)
Lemma scan_lookup_rest n j st :
  4 * n <= j -> (scan threshold bd ad n st).1 !! j = st.1 !! j.
Proof.
  induction n as [|n IH]; intros Hj; [reflexivity|].
  rewrite scan_S, loopBody_lookup_other by lia. apply IH. lia.
Qed.

(** Entries of a pixel already visited hold what its iteration wrote. *)
Lemma scan_lookup n p c st :
  p < n -> c < 4 -> 4 * p + c < length st.1 ->
  (scan threshold bd ad n st).1 !! (4 * p + c)
  = Some (if pixelChanged threshold bd ad (4 * p)
          then nth c flagColor 0%Z
          else toUint8Clamp (ad !! (4 * p + c))).
Proof.
  induction n as [|n IH]; intros Hp Hc Hlen; [lia|].
  rewrite scan_S.
  destruct (decide (p = n)) as [->|Hne].
  - apply loopBody_lookup_at; [exact Hc|]. by rewrite scan_length.
  - rewrite loopBody_lookup_other by lia. apply IH; lia.
Qed.

Lemma countChanged_le n : countChanged threshold bd ad n <= n.
Proof.
  induction n as [|n IH]; cbn [countChanged]; [lia|].
  destruct (pixelChanged threshold bd ad (4 * n)); lia.
Qed.

End LoopFacts.

(** ** Facts about the handler *)

Section HandlerFacts.

Variables composite paint : Canvas -> ImageData -> list Z.
Variable threshold : Z.
Variable canvas : Canvas.

(** On images that are not empty the handler returns, and what it
    returns is the state in which the loop ends. *)
Lemma onload_returned b a :
  emptyb b = false -> emptyb a = false ->
  exists c,
    afterImg_onload true composite paint threshold canvas b a
    = Returned (c, resultOf threshold b a)
    /\ canvas_width c = width b /\ canvas_height c = height b.
Proof.
  intros Hb Ha.
  unfold afterImg_onload, getImageData, ctx_getImageData, createImageData.
  cbn [canvas_width canvas_height setWidth setHeight drawImage bitmap].
  unfold emptyb in Hb, Ha. rewrite Hb, Ha. cbn [bind data width height].
  rewrite diffLoop_scan.
  unfold resultOf, scanned.
  destruct (scan threshold (data b) (data a) (iterations (length (data b)))
              (transparentBlack (width b) (height b), 0)) as [d total].
  eexists. split; [reflexivity|]. split; reflexivity.
Qed.

(** An empty image on either side makes [getImageData] raise. *)
Lemma onload_thrown b a :
  emptyb b = true \/ emptyb a = true ->
  afterImg_onload true composite paint threshold canvas b a
  = Thrown IndexSizeError.
Proof.
  intros Hempty.
  unfold afterImg_onload, getImageData, ctx_getImageData.
  cbn [canvas_width canvas_height setWidth setHeight drawImage bitmap].
  unfold emptyb in Hempty.
  destruct ((width b =? 0) || (height b =? 0)) eqn:Hb; [reflexivity|].
  destruct Hempty as [Hempty|Hempty]; [discriminate|].
  rewrite Hempty. reflexivity.
Qed.

End HandlerFacts.

(** ** Facts about the guard *)

Lemma js_gt_diff_Some x y t :
  js_gt (Math_abs (js_sub (Some x) (Some y))) t = true
  <-> (t < Z.abs (x - y))%Z.
Proof. simpl. apply Z.ltb_lt. Qed.

Lemma js_gt_diff_iff bd ad j t :
  js_gt (Math_abs (js_sub (bd !! j) (ad !! j))) t = true
  <-> differsBeyond t bd ad j.
Proof.
  unfold differsBeyond.
  destruct (bd !! j) as [x|], (ad !! j) as [y|]; simpl.
  - rewrite Z.ltb_lt. split.
    + intros Hlt. exists x, y. done.
    + intros (x' & y' & [= <-] & [= <-] & Hlt). exact Hlt.
  - split; [done|]. intros (x' & y' & _ & Hy & _). discriminate.
  - split; [done|]. intros (x' & y' & Hx & _). discriminate.
  - split; [done|]. intros (x' & y' & Hx & _). discriminate.
Qed.

Lemma js_gt_diff_None_r v t : js_gt (Math_abs (js_sub v None)) t = false.
Proof. destruct v; reflexivity. Qed.

Lemma js_gt_diff_sym u v t :
  js_gt (Math_abs (js_sub u v)) t = js_gt (Math_abs (js_sub v u)) t.
Proof.
  destruct u as [x|], v as [y|]; try reflexivity.
  simpl. replace (y - x)%Z with (- (x - y))%Z by lia.
  by rewrite Z.abs_opp.
Qed.

Lemma js_gt_antitone n t t' :
  (t <= t')%Z -> js_gt n t' = true -> js_gt n t = true.
Proof.
  intros Hle. destruct n as [x|]; simpl; [|done].
  rewrite !Z.ltb_lt. lia.
Qed.

Lemma pixelChanged_sym t bd ad i :
  pixelChanged t bd ad i = pixelChanged t ad bd i.
Proof.
  unfold pixelChanged, rDiff, gDiff, bDiff.
  by rewrite (js_gt_diff_sym (bd !! i)), (js_gt_diff_sym (bd !! (i + 1))),
    (js_gt_diff_sym (bd !! (i + 2))).
Qed.

Lemma pixelChanged_antitone t t' bd ad i :
  (t <= t')%Z ->
  pixelChanged t' bd ad i = true -> pixelChanged t bd ad i = true.
Proof.
  intros Hle. unfold pixelChanged.
  rewrite !orb_true_iff.
  intros [[H|H]|H]; eauto using js_gt_antitone.
Qed.

(** Past the end of the after buffer every difference is [NaN]. *)
Lemma pixelChanged_beyond t bd ad i :
  length ad <= i -> pixelChanged t bd ad i = false.
Proof.
  intros Hlen. unfold pixelChanged, rDiff, gDiff, bDiff.
  rewrite !(lookup_ge_None_2 ad) by lia.
  by rewrite !js_gt_diff_None_r.
Qed.

Lemma pixelAt_Some d p r g b a :
  pixelAt d p = Some (r, g, b, a) ->
  d !! (4 * p) = Some r /\ d !! (4 * p + 1) = Some g
  /\ d !! (4 * p + 2) = Some b /\ d !! (4 * p + 3) = Some a.
Proof.
  unfold pixelAt.
  destruct (d !! (4 * p)), (d !! (4 * p + 1)), (d !! (4 * p + 2)),
    (d !! (4 * p + 3)); try discriminate.
  intros [= -> -> -> ->]. done.
Qed.

Lemma countChanged_antitone t t' bd ad n :
  (t <= t')%Z -> countChanged t' bd ad n <= countChanged t bd ad n.
Proof.
  intros Hle. induction n as [|n IH]; cbn [countChanged]; [lia|].
  pose proof (pixelChanged_antitone t t' bd ad (4 * n) Hle) as Hmono.
  destruct (pixelChanged t' bd ad (4 * n)).
  - rewrite Hmono by reflexivity. lia.
  - destruct (pixelChanged t bd ad (4 * n)); lia.
Qed.

Lemma countChanged_sym t bd ad n :
  countChanged t bd ad n = countChanged t ad bd n.
Proof.
  induction n as [|n IH]; cbn [countChanged]; [reflexivity|].
  by rewrite IH, pixelChanged_sym.
Qed.

Lemma transparentBlack_length w h : length (transparentBlack w h) = 4 * (w * h).
Proof. unfold transparentBlack. apply repeat_length. Qed.

Lemma bytesb_lookup d j v :
  bytesb d = true -> d !! j = Some v -> toUint8Clamp (Some v) = v.
Proof.
  unfold bytesb. rewrite forallb_forall. intros Hall Hj.
  assert (In v d) as Hin.
  { apply list_elem_of_In, list_elem_of_lookup. eauto. }
  apply Hall in Hin. apply andb_true_iff in Hin as [Hlo Hhi].
  apply Z.leb_le in Hlo, Hhi. simpl. lia.
Qed.

Lemma scanned_length t b a :
  length (scanned t b a).1 = 4 * (width b * height b).
Proof.
  unfold scanned. rewrite scan_length. cbn [fst].
  apply transparentBlack_length.
Qed.

Lemma scanned_count t b a :
  (scanned t b a).2
  = countChanged t (data b) (data a) (iterations (length (data b))).
Proof. unfold scanned. by rewrite scan_count. Qed.

Lemma sizedb_iterations b :
  sizedb b = true -> iterations (length (data b)) = width b * height b.
Proof.
  unfold sizedb. intros Hsz. apply Nat.eqb_eq in Hsz.
  rewrite Hsz. apply iterations_exact.
Qed.

(** Entry [c] of pixel [p] of the overlay when the loop has ended. *)
Lemma scanned_lookup t b a p c :
  sizedb b = true -> p < width b * height b -> c < 4 ->
  (scanned t b a).1 !! (4 * p + c)
  = Some (if pixelChanged t (data b) (data a) (4 * p)
          then nth c flagColor 0%Z
          else toUint8Clamp (data a !! (4 * p + c))).
Proof.
  intros Hsz Hp Hc. unfold scanned.
  apply scan_lookup; [by rewrite sizedb_iterations|exact Hc|].
  cbn [fst]. rewrite transparentBlack_length. lia.
Qed.

Lemma scanned_pixelAt t b a p :
  sizedb b = true -> p < width b * height b ->
  pixelAt (scanned t b a).1 p
  = Some (if pixelChanged t (data b) (data a) (4 * p)
          then (255, 0, 0, 128)%Z
          else (toUint8Clamp (data a !! (4 * p)),
                toUint8Clamp (data a !! (4 * p + 1)),
                toUint8Clamp (data a !! (4 * p + 2)),
                toUint8Clamp (data a !! (4 * p + 3)))).
Proof.
  intros Hsz Hp. unfold pixelAt.
  pose proof (scanned_lookup t b a p 0 Hsz Hp) as H0.
  rewrite Nat.add_0_r in H0. rewrite H0 by lia.
  rewrite !(scanned_lookup t b a p) by (done || lia).
  by destruct (pixelChanged t (data b) (data a) (4 * p)).
Qed.

Lemma emptyb_false_pos b : emptyb b = false -> 0 < width b * height b.
Proof.
  unfold emptyb. intros H. apply orb_false_iff in H as [Hw Hh].
  apply Nat.eqb_neq in Hw, Hh.
  apply Nat.mul_pos_pos; lia.
Qed.

(** The quotient of a count by a positive total that bounds it. *)
Lemma ratio_bounds (c n : nat) :
  c <= n -> 0 < n ->
  (inject_Z (Z.of_nat c) / inject_Z (Z.of_nat n) * inject_Z (Z.of_nat n)
   == inject_Z (Z.of_nat c))%Q
  /\ (0 <= inject_Z (Z.of_nat c) / inject_Z (Z.of_nat n))%Q
  /\ (inject_Z (Z.of_nat c) / inject_Z (Z.of_nat n) <= 1)%Q.
Proof.
  intros Hle Hpos.
  assert (0 < inject_Z (Z.of_nat n))%Q as Hn.
  { change 0%Q with (inject_Z 0). rewrite <- Zlt_Qlt. lia. }
  split; [|split].
  - rewrite Qmult_comm. apply Qmult_div_r. intros Hz. rewrite Hz in Hn.
    exact (Qlt_irrefl _ Hn).
  - apply Qle_shift_div_l; [exact Hn|].
    rewrite Qmult_0_l. change 0%Q with (inject_Z 0).
    rewrite <- Zle_Qle. lia.
  - apply Qle_shift_div_r; [exact Hn|].
    rewrite Qmult_1_l. rewrite <- Zle_Qle. lia.
Qed.

Lemma js_gt_diff_self v t :
  (0 <= t)%Z -> js_gt (Math_abs (js_sub v v)) t = false.
Proof.
  intros Ht. destruct v as [x|]; [|reflexivity].
  simpl. apply Z.ltb_ge. rewrite Z.sub_diag. simpl. exact Ht.
Qed.

Lemma pixelChanged_self t d i : (0 <= t)%Z -> pixelChanged t d d i = false.
Proof.
  intros Ht. unfold pixelChanged, rDiff, gDiff, bDiff.
  by rewrite !js_gt_diff_self.
Qed.

Lemma countChanged_self t d n : (0 <= t)%Z -> countChanged t d d n = 0.
Proof.
  intros Ht. induction n as [|n IH]; cbn [countChanged]; [reflexivity|].
  by rewrite IH, pixelChanged_self.
Qed.

(** Compared with itself, a well-formed image is copied entry by entry. *)
Lemma scanned_self t img :
  (0 <= t)%Z -> wfb img = true -> (scanned t img img).1 = data img.
Proof.
  intros Ht Hwf. apply andb_true_iff in Hwf as [Hsz Hbytes].
  pose proof Hsz as Hlen. unfold sizedb in Hlen. apply Nat.eqb_eq in Hlen.
  apply (list_eq_same_length _ _ (4 * (width img * height img)));
    [exact Hlen|apply scanned_length|].
  intros j x y Hj Hx Hy.
  pose proof (Nat.div_mod_eq j 4) as Hdm.
  pose proof (Nat.mod_upper_bound j 4) as Hmod.
  rewrite Hdm in Hx, Hy.
  rewrite scanned_lookup in Hx by (done || lia).
  rewrite pixelChanged_self in Hx by exact Ht.
  rewrite Hy in Hx. rewrite (bytesb_lookup _ _ _ Hbytes Hy) in Hx.
  congruence.
Qed.

Lemma reads_beyond d i : length d <= i -> reads d i = (None, None, None, None).
Proof.
  intros Hlen. unfold reads.
  by rewrite !(lookup_ge_None_2 d) by lia.
Qed.

Lemma pixelAt_within d p :
  4 * p + 3 < length d -> exists q, pixelAt d p = Some q.
Proof.
  intros Hlen. unfold pixelAt.
  destruct (lookup_lt_is_Some_2 d (4 * p)) as [r ->]; [lia|].
  destruct (lookup_lt_is_Some_2 d (4 * p + 1)) as [g ->]; [lia|].
  destruct (lookup_lt_is_Some_2 d (4 * p + 2)) as [b ->]; [lia|].
  destruct (lookup_lt_is_Some_2 d (4 * p + 3)) as [a ->]; [lia|].
  eauto.
Qed.

Lemma emptyb_true_iff img :
  emptyb img = true <-> width img = 0 \/ height img = 0.
Proof. unfold emptyb. by rewrite orb_true_iff, !Nat.eqb_eq. Qed.

(** Without a 2D context [getImageData] throws its own error at once. *)
Lemma onload_no_context composite paint t canvas b a :
  afterImg_onload false composite paint t canvas b a
  = Thrown (JsError "Could not get context").
Proof. reflexivity. Qed.

(** ** The claims *)

(** C1. At every pixel position the guard of the loop classifies the pixel
    as changed exactly when the red, the green or the blue samples of the
    two buffers at that position differ in absolute value by strictly more
    than the threshold. Where both buffers hold the pixel, with samples
    (r1, g1, b1, a1) and (r2, g2, b2, a2), this is the condition on
    |r1 - r2|, |g1 - g2| and |b1 - b2|: the alpha samples play no part, and
    a difference equal to the threshold does not count. *)
Theorem C1_changed_iff_rgb_exceeds (t : Z) (bd ad : list Z) (p : nat) :
  (pixelChanged t bd ad (4 * p) = true
   <-> differsBeyond t bd ad (4 * p) \/ differsBeyond t bd ad (4 * p + 1)
       \/ differsBeyond t bd ad (4 * p + 2))
  /\ forall r1 g1 b1 a1 r2 g2 b2 a2 : Z,
       pixelAt bd p = Some (r1, g1, b1, a1) ->
       pixelAt ad p = Some (r2, g2, b2, a2) ->
       pixelChanged t bd ad (4 * p) = true
       <-> (t < Z.abs (r1 - r2) \/ t < Z.abs (g1 - g2)
            \/ t < Z.abs (b1 - b2))%Z.
Proof.
  split.
  - unfold pixelChanged, rDiff, gDiff, bDiff.
    rewrite !orb_true_iff, !js_gt_diff_iff. tauto.
  - intros r1 g1 b1 a1 r2 g2 b2 a2 Hb Ha.
    apply pixelAt_Some in Hb as (Hr1 & Hg1 & Hb1 & _).
    apply pixelAt_Some in Ha as (Hr2 & Hg2 & Hb2 & _).
    unfold pixelChanged, rDiff, gDiff, bDiff.
    rewrite Hr1, Hg1, Hb1, Hr2, Hg2, Hb2.
    rewrite !orb_true_iff, !js_gt_diff_Some. tauto.
Qed.

Lemma C1_witness :
  pixelAt (px 100 7 7 0) 0 = Some (100, 7, 7, 0)%Z
  /\ pixelAt (px 131 7 7 255) 0 = Some (131, 7, 7, 255)%Z
  /\ (pixelChanged 30 (px 100 7 7 0) (px 131 7 7 255) (4 * 0) = true
      <-> (30 < Z.abs (100 - 131) \/ 30 < Z.abs (7 - 7)
           \/ 30 < Z.abs (7 - 7))%Z).
Proof.
  split; [reflexivity|]. split; [reflexivity|].
  apply (proj2 (C1_changed_iff_rgb_exceeds 30 (px 100 7 7 0)
                  (px 131 7 7 255) 0) 100 7 7 0 131 7 7 255)%Z;
    reflexivity.
Defined.

(** C2. At every pixel position of the grid the overlay holds the flag
    colour (255, 0, 0, 128) where the guard classified the pixel as changed,
    and otherwise the four samples of the after pixel of the same buffer
    position, alpha included, as they are. *)
Theorem C2_overlay_flag_or_after_pixel
    (composite paint : Canvas -> ImageData -> list Z) (t : Z)
    (canvas : Canvas) (b a : ImageData) (p : nat) :
  emptyb b = false -> emptyb a = false ->
  wfb b = true -> wfb a = true ->
  p < width b * height b ->
  exists c r,
    afterImg_onload true composite paint t canvas b a = Returned (c, r)
    /\ (pixelChanged t (data b) (data a) (4 * p) = true ->
        pixelAt (data (diffData r)) p = Some (255, 0, 0, 128)%Z)
    /\ (pixelChanged t (data b) (data a) (4 * p) = false ->
        forall q, pixelAt (data a) p = Some q ->
                  pixelAt (data (diffData r)) p = Some q).
Proof.
  intros Hb Ha Hwb Hwa Hp.
  apply andb_true_iff in Hwb as [Hsz _].
  apply andb_true_iff in Hwa as [_ Hbytes].
  destruct (onload_returned composite paint t canvas b a Hb Ha)
    as (c & Hrun & _).
  exists c, (resultOf t b a). split; [exact Hrun|].
  cbn [resultOf diffData data].
  rewrite (scanned_pixelAt t b a p Hsz Hp).
  split; intros Hchanged; rewrite Hchanged; [reflexivity|].
  intros [[[r g] bl] al] Hq.
  apply pixelAt_Some in Hq as (Hr & Hg & Hbl & Hal).
  rewrite Hr, Hg, Hbl, Hal.
  by rewrite (bytesb_lookup _ _ _ Hbytes Hr), (bytesb_lookup _ _ _ Hbytes Hg),
    (bytesb_lookup _ _ _ Hbytes Hbl), (bytesb_lookup _ _ _ Hbytes Hal).
Qed.

Lemma C2_witness :
  emptyb (img1x1 100 7 7 255) = false
  /\ emptyb (img1x1 131 7 7 255) = false
  /\ wfb (img1x1 100 7 7 255) = true
  /\ wfb (img1x1 131 7 7 255) = true
  /\ 0 < width (img1x1 100 7 7 255) * height (img1x1 100 7 7 255)
  /\ exists c r,
       afterImg_onload true noBlend overwrite 30 staleCanvas
         (img1x1 100 7 7 255) (img1x1 131 7 7 255) = Returned (c, r)
       /\ (pixelChanged 30 (data (img1x1 100 7 7 255))
             (data (img1x1 131 7 7 255)) (4 * 0) = true ->
           pixelAt (data (diffData r)) 0 = Some (255, 0, 0, 128)%Z)
       /\ (pixelChanged 30 (data (img1x1 100 7 7 255))
             (data (img1x1 131 7 7 255)) (4 * 0) = false ->
           forall q, pixelAt (data (img1x1 131 7 7 255)) 0 = Some q ->
                     pixelAt (data (diffData r)) 0 = Some q).
Proof.
  split; [reflexivity|]. split; [reflexivity|].
  split; [reflexivity|]. split; [reflexivity|].
  split; [simpl; lia|].
  apply (C2_overlay_flag_or_after_pixel noBlend overwrite 30 staleCanvas
           (img1x1 100 7 7 255) (img1x1 131 7 7 255) 0);
    first [reflexivity | simpl; lia].
Defined.

(** C3. On every pair of images the handler accepts, the changed-pixel
    count lies between 0 and the pixel count of the grid, the ratio is the
    count divided by the pixel count, and so lies between 0 and 1. *)
Theorem C3_count_and_ratio_bounds
    (composite paint : Canvas -> ImageData -> list Z) (t : Z)
    (canvas : Canvas) (b a : ImageData) :
  emptyb b = false -> emptyb a = false -> wfb b = true ->
  exists c r,
    afterImg_onload true composite paint t canvas b a = Returned (c, r)
    /\ 0 <= totalChangedPixels r <= totalPixels r
    /\ 0 < totalPixels r
    /\ (changeRatio r * inject_Z (Z.of_nat (totalPixels r))
        == inject_Z (Z.of_nat (totalChangedPixels r)))%Q
    /\ (0 <= changeRatio r)%Q /\ (changeRatio r <= 1)%Q.
Proof.
  intros Hb Ha Hwb.
  apply andb_true_iff in Hwb as [Hsz _].
  destruct (onload_returned composite paint t canvas b a Hb Ha)
    as (c & Hrun & _).
  exists c, (resultOf t b a). split; [exact Hrun|].
  pose proof (emptyb_false_pos b Hb) as Hpos.
  assert (totalChangedPixels (resultOf t b a) <= totalPixels (resultOf t b a))
    as Hle.
  { cbn [resultOf totalChangedPixels totalPixels].
    rewrite scanned_count, <- (sizedb_iterations b Hsz).
    apply countChanged_le. }
  split; [split; [lia|exact Hle]|].
  split; [exact Hpos|].
  unfold changeRatio. apply ratio_bounds; [exact Hle|exact Hpos].
Qed.

Lemma C3_witness :
  emptyb dark2x2 = false /\ emptyb bright2x2 = false /\ wfb dark2x2 = true
  /\ exists c r,
       afterImg_onload true noBlend overwrite 30 staleCanvas dark2x2 bright2x2
       = Returned (c, r)
       /\ 0 <= totalChangedPixels r <= totalPixels r
       /\ 0 < totalPixels r
       /\ (changeRatio r * inject_Z (Z.of_nat (totalPixels r))
           == inject_Z (Z.of_nat (totalChangedPixels r)))%Q
       /\ (0 <= changeRatio r)%Q /\ (changeRatio r <= 1)%Q.
Proof.
  split; [reflexivity|]. split; [reflexivity|]. split; [reflexivity|].
  apply (C3_count_and_ratio_bounds noBlend overwrite 30 staleCanvas
           dark2x2 bright2x2); reflexivity.
Defined.

(** C4. Comparing a non-empty image with itself, at the threshold of the
    source, counts no changed pixel and returns an overlay equal to the
    image: same width, same height, same samples. *)
Theorem C4_identity (composite paint : Canvas -> ImageData -> list Z)
    (canvas : Canvas) (img : ImageData) :
  emptyb img = false -> wfb img = true ->
  exists c r,
    afterImg_onload true composite paint 30 canvas img img = Returned (c, r)
    /\ totalChangedPixels r = 0
    /\ diffData r = img.
Proof.
  intros Hne Hwf.
  destruct (onload_returned composite paint 30 canvas img img Hne Hne)
    as (c & Hrun & _).
  exists c, (resultOf 30 img img). split; [exact Hrun|].
  cbn [resultOf totalChangedPixels diffData]. split.
  - rewrite scanned_count. apply countChanged_self. lia.
  - rewrite scanned_self by (done || lia). by destruct img.
Qed.

Lemma C4_witness :
  emptyb dark2x2 = false /\ wfb dark2x2 = true
  /\ exists c r,
       afterImg_onload true noBlend overwrite 30 staleCanvas dark2x2 dark2x2
       = Returned (c, r)
       /\ totalChangedPixels r = 0
       /\ diffData r = dark2x2.
Proof.
  split; [reflexivity|]. split; [reflexivity|].
  apply (C4_identity noBlend overwrite staleCanvas dark2x2); reflexivity.
Defined.

(** C5, as stated, fails. The grid is 2 by 1 and the after image 1 by 1;
    column 1 of row 0 lies outside the after image. The reads of the after
    buffer there give [undefined], not the samples (0, 0, 0, 0): the pixel,
    whose grey 200 differs from 0 by more than 30, is not counted, whereas
    it is counted once the after image really holds a transparent black
    pixel there. *)
Lemma C5_counterexample :
  inBounds grey2x1 1 0 = true /\ inBounds grey1x1 1 0 = false
  /\ reads (data grey1x1) (4 * gridIndex (width grey2x1) 1 0)
     = (None, None, None, None)
  /\ reads (data grey1x1) (4 * gridIndex (width grey2x1) 1 0)
     <> (Some 0, Some 0, Some 0, Some 0)%Z
  /\ resultOnly (run 30 grey2x1 grey1x1)
     = Returned (mkDiffResult grey1x1_padded 0 2)
  /\ resultOnly (run 30 grey2x1 grey1x1_padded)
     = Returned (mkDiffResult
                  (mkImageData 2 1 (px 200 200 200 255 ++ px 255 0 0 128))
                  1 2).
Proof.
  split; [reflexivity|]. split; [reflexivity|]. split; [reflexivity|].
  split; [discriminate|]. split; reflexivity.
Qed.

(** C5, amended. The grid is that of the before image and both buffers are
    addressed by the same linear index. At a grid position whose index lies
    past the end of the after buffer, the before pixel is read from its
    buffer, the four reads of the after buffer give [undefined], the pixel
    is not classified as changed whatever the threshold, and the overlay
    holds (0, 0, 0, 0) there. *)
Theorem C5_reads_past_after_buffer
    (composite paint : Canvas -> ImageData -> list Z) (t : Z)
    (canvas : Canvas) (b a : ImageData) (p : nat) :
  emptyb b = false -> emptyb a = false -> wfb b = true ->
  p < width b * height b ->
  length (data a) <= 4 * p ->
  (exists q, pixelAt (data b) p = Some q)
  /\ reads (data a) (4 * p) = (None, None, None, None)
  /\ pixelChanged t (data b) (data a) (4 * p) = false
  /\ exists c r,
       afterImg_onload true composite paint t canvas b a = Returned (c, r)
       /\ pixelAt (data (diffData r)) p = Some (0, 0, 0, 0)%Z.
Proof.
  intros Hb Ha Hwb Hp Hbeyond.
  apply andb_true_iff in Hwb as [Hsz _].
  pose proof Hsz as Hlen. unfold sizedb in Hlen. apply Nat.eqb_eq in Hlen.
  pose proof (pixelChanged_beyond t (data b) (data a) (4 * p) Hbeyond)
    as Hunchanged.
  split; [apply pixelAt_within; lia|].
  split; [by apply reads_beyond|].
  split; [exact Hunchanged|].
  destruct (onload_returned composite paint t canvas b a Hb Ha)
    as (c & Hrun & _).
  exists c, (resultOf t b a). split; [exact Hrun|].
  cbn [resultOf diffData data].
  rewrite (scanned_pixelAt t b a p Hsz Hp), Hunchanged.
  by rewrite !(lookup_ge_None_2 (data a)) by lia.
Qed.

Lemma C5_witness :
  emptyb grey2x1 = false /\ emptyb grey1x1 = false /\ wfb grey2x1 = true
  /\ 1 < width grey2x1 * height grey2x1
  /\ length (data grey1x1) <= 4 * 1
  /\ (exists q, pixelAt (data grey2x1) 1 = Some q)
  /\ reads (data grey1x1) (4 * 1) = (None, None, None, None)
  /\ pixelChanged 30 (data grey2x1) (data grey1x1) (4 * 1) = false
  /\ exists c r,
       afterImg_onload true noBlend overwrite 30 staleCanvas grey2x1 grey1x1
       = Returned (c, r)
       /\ pixelAt (data (diffData r)) 1 = Some (0, 0, 0, 0)%Z.
Proof.
  split; [reflexivity|]. split; [reflexivity|]. split; [reflexivity|].
  split; [simpl; lia|]. split; [simpl; lia|].
  apply (C5_reads_past_after_buffer noBlend overwrite 30 staleCanvas
           grey2x1 grey1x1 1); first [reflexivity | simpl; lia].
Defined.

(** C6, as stated, fails. With an image of zero width and height on either
    side the handler does stop without a result, but what stops it is the
    [IndexSizeError] raised by the canvas call in [getImageData]; no error
    named EmptyImage exists. *)
Lemma C6_counterexample :
  width emptyImage = 0 /\ height emptyImage = 0
  /\ run 30 emptyImage grey1x1 = Thrown (DOMException "IndexSizeError")
  /\ run 30 grey1x1 emptyImage = Thrown (DOMException "IndexSizeError")
  /\ ~ (exists e, run 30 emptyImage grey1x1 = Thrown e
                  /\ exnName e = "EmptyImage"%string)
  /\ ~ (exists e, run 30 grey1x1 emptyImage = Thrown e
                  /\ exnName e = "EmptyImage"%string).
Proof.
  split; [reflexivity|]. split; [reflexivity|].
  split; [reflexivity|]. split; [reflexivity|].
  split; intros (e & Hrun & Hname); injection Hrun as <-; discriminate.
Qed.

(** C6, amended. If either image has zero width or zero height, the
    handler produces no result: it is stopped by an exception, the
    [IndexSizeError] of the canvas call in [getImageData] when a 2D context
    is available, the error of [getImageData] itself when none is. *)
Theorem C6_empty_image_throws (has2d : bool)
    (composite paint : Canvas -> ImageData -> list Z) (t : Z)
    (canvas : Canvas) (b a : ImageData) :
  (width b = 0 \/ height b = 0) \/ (width a = 0 \/ height a = 0) ->
  afterImg_onload has2d composite paint t canvas b a
  = Thrown (if has2d then DOMException "IndexSizeError"
            else JsError "Could not get context")
  /\ forall c r,
       afterImg_onload has2d composite paint t canvas b a <> Returned (c, r).
Proof.
  intros Hempty.
  assert (afterImg_onload has2d composite paint t canvas b a
          = Thrown (if has2d then DOMException "IndexSizeError"
                    else JsError "Could not get context")) as Hrun.
  { destruct has2d; [|apply onload_no_context].
    apply onload_thrown. rewrite !emptyb_true_iff. exact Hempty. }
  split; [exact Hrun|]. intros c r. rewrite Hrun. discriminate.
Qed.

Lemma C6_witness :
  ((width grey1x1 = 0 \/ height grey1x1 = 0)
   \/ (width emptyImage = 0 \/ height emptyImage = 0))
  /\ afterImg_onload true noBlend overwrite 30 staleCanvas grey1x1 emptyImage
     = Thrown (DOMException "IndexSizeError")
  /\ forall c r,
       afterImg_onload true noBlend overwrite 30 staleCanvas grey1x1 emptyImage
       <> Returned (c, r).
Proof.
  split; [right; left; reflexivity|].
  apply (C6_empty_image_throws true noBlend overwrite 30 staleCanvas
           grey1x1 emptyImage).
  right; left; reflexivity.
Defined.

(** C7. On every pair of non-empty images, of equal dimensions or not, the
    handler returns, and the overlay has the width and the height of the
    before image, which are also those of the canvas and of the grid whose
    pixels are counted. *)
Theorem C7_overlay_has_before_dimensions
    (composite paint : Canvas -> ImageData -> list Z) (t : Z)
    (canvas : Canvas) (b a : ImageData) :
  emptyb b = false -> emptyb a = false ->
  exists c r,
    afterImg_onload true composite paint t canvas b a = Returned (c, r)
    /\ width (diffData r) = width b
    /\ height (diffData r) = height b
    /\ length (data (diffData r)) = 4 * (width b * height b)
    /\ totalPixels r = width b * height b
    /\ canvas_width c = width b /\ canvas_height c = height b.
Proof.
  intros Hb Ha.
  destruct (onload_returned composite paint t canvas b a Hb Ha)
    as (c & Hrun & Hcw & Hch).
  exists c, (resultOf t b a). split; [exact Hrun|].
  cbn [resultOf diffData width height data totalPixels].
  rewrite scanned_length.
  repeat split; first [reflexivity | assumption].
Qed.

Lemma C7_witness :
  emptyb dark2x2 = false /\ emptyb flat3x3 = false
  /\ exists c r,
       afterImg_onload true noBlend overwrite 30 staleCanvas dark2x2 flat3x3
       = Returned (c, r)
       /\ width (diffData r) = width dark2x2
       /\ height (diffData r) = height dark2x2
       /\ length (data (diffData r)) = 4 * (width dark2x2 * height dark2x2)
       /\ totalPixels r = width dark2x2 * height dark2x2
       /\ canvas_width c = width dark2x2 /\ canvas_height c = height dark2x2.
Proof.
  split; [reflexivity|]. split; [reflexivity|].
  apply (C7_overlay_has_before_dimensions noBlend overwrite 30 staleCanvas
           dark2x2 flat3x3); reflexivity.
Defined.

(** C8. What the handler computes is determined by the two images and the
    threshold alone: whatever the shared canvas held before and however
    the platform blends and stores pixels, two runs end with the same
    overlay, the same count and the same pixel total, hence the same ratio,
    or with the same exception. *)
Theorem C8_deterministic (has2d : bool)
    (composite1 paint1 composite2 paint2 : Canvas -> ImageData -> list Z)
    (t : Z) (canvas1 canvas2 : Canvas) (b a : ImageData) :
  resultOnly (afterImg_onload has2d composite1 paint1 t canvas1 b a)
  = resultOnly (afterImg_onload has2d composite2 paint2 t canvas2 b a).
Proof.
  destruct has2d; [|reflexivity].
  destruct (emptyb b) eqn:Hb.
  { by rewrite !onload_thrown by (left; exact Hb). }
  destruct (emptyb a) eqn:Ha.
  { by rewrite !onload_thrown by (right; exact Ha). }
  destruct (onload_returned composite1 paint1 t canvas1 b a Hb Ha)
    as (c1 & -> & _).
  destruct (onload_returned composite2 paint2 t canvas2 b a Hb Ha)
    as (c2 & -> & _).
  reflexivity.
Qed.

(** C9. Raising the threshold never raises the count: for thresholds
    [t <= t'] the handler counts at most as many changed pixels at [t'] as
    at [t], on images of equal dimensions as on any others. *)
Theorem C9_count_antitone_in_threshold
    (composite paint : Canvas -> ImageData -> list Z) (t t' : Z)
    (canvas : Canvas) (b a : ImageData) :
  emptyb b = false -> emptyb a = false ->
  (t <= t')%Z ->
  exists c r c' r',
    afterImg_onload true composite paint t canvas b a = Returned (c, r)
    /\ afterImg_onload true composite paint t' canvas b a = Returned (c', r')
    /\ totalChangedPixels r' <= totalChangedPixels r.
Proof.
  intros Hb Ha Hle.
  destruct (onload_returned composite paint t canvas b a Hb Ha)
    as (c & Hrun & _).
  destruct (onload_returned composite paint t' canvas b a Hb Ha)
    as (c' & Hrun' & _).
  exists c, (resultOf t b a), c', (resultOf t' b a).
  split; [exact Hrun|]. split; [exact Hrun'|].
  cbn [resultOf totalChangedPixels]. rewrite !scanned_count.
  by apply countChanged_antitone.
Qed.

Lemma C9_witness :
  emptyb (img1x1 100 7 7 255) = false
  /\ emptyb (img1x1 131 7 7 255) = false
  /\ (30 <= 31)%Z
  /\ exists c r c' r',
       afterImg_onload true noBlend overwrite 30 staleCanvas
         (img1x1 100 7 7 255) (img1x1 131 7 7 255) = Returned (c, r)
       /\ afterImg_onload true noBlend overwrite 31 staleCanvas
            (img1x1 100 7 7 255) (img1x1 131 7 7 255) = Returned (c', r')
       /\ totalChangedPixels r' <= totalChangedPixels r.
Proof.
  split; [reflexivity|]. split; [reflexivity|]. split; [lia|].
  apply (C9_count_antitone_in_threshold noBlend overwrite 30 31 staleCanvas
           (img1x1 100 7 7 255) (img1x1 131 7 7 255));
    first [reflexivity | lia].
Defined.

(** C10. On two well-formed images of equal dimensions, swapping the
    before and the after image leaves the changed-pixel count, and with it
    the ratio, as it was. *)
Theorem C10_count_symmetric
    (composite paint : Canvas -> ImageData -> list Z) (t : Z)
    (canvas : Canvas) (a b : ImageData) :
  emptyb a = false ->
  wfb a = true -> wfb b = true ->
  width a = width b -> height a = height b ->
  exists c1 r1 c2 r2,
    afterImg_onload true composite paint t canvas a b = Returned (c1, r1)
    /\ afterImg_onload true composite paint t canvas b a = Returned (c2, r2)
    /\ totalChangedPixels r1 = totalChangedPixels r2
    /\ changeRatio r1 = changeRatio r2.
Proof.
  intros Ha Hwa Hwb Hw Hh.
  assert (emptyb b = false) as Hb.
  { unfold emptyb in *. by rewrite <- Hw, <- Hh. }
  apply andb_true_iff in Hwa as [Hsa _].
  apply andb_true_iff in Hwb as [Hsb _].
  destruct (onload_returned composite paint t canvas a b Ha Hb)
    as (c1 & Hrun1 & _).
  destruct (onload_returned composite paint t canvas b a Hb Ha)
    as (c2 & Hrun2 & _).
  exists c1, (resultOf t a b), c2, (resultOf t b a).
  split; [exact Hrun1|]. split; [exact Hrun2|].
  assert (totalChangedPixels (resultOf t a b)
          = totalChangedPixels (resultOf t b a)) as Hcount.
  { cbn [resultOf totalChangedPixels]. rewrite !scanned_count.
    rewrite (sizedb_iterations a Hsa), (sizedb_iterations b Hsb), Hw, Hh.
    apply countChanged_sym. }
  split; [exact Hcount|].
  unfold changeRatio. rewrite Hcount.
  cbn [resultOf totalPixels]. by rewrite Hw, Hh.
Qed.

Lemma C10_witness :
  emptyb dark2x2 = false
  /\ wfb dark2x2 = true /\ wfb bright2x2 = true
  /\ width dark2x2 = width bright2x2 /\ height dark2x2 = height bright2x2
  /\ exists c1 r1 c2 r2,
       afterImg_onload true noBlend overwrite 30 staleCanvas dark2x2 bright2x2
       = Returned (c1, r1)
       /\ afterImg_onload true noBlend overwrite 30 staleCanvas bright2x2 dark2x2
          = Returned (c2, r2)
       /\ totalChangedPixels r1 = totalChangedPixels r2
       /\ changeRatio r1 = changeRatio r2.
Proof.
  split; [reflexivity|]. split; [reflexivity|]. split; [reflexivity|].
  split; [reflexivity|]. split; [reflexivity|].
  apply (C10_count_symmetric noBlend overwrite 30 staleCanvas
           dark2x2 bright2x2); reflexivity.
Defined.

(** ** The entry point *)

(** With both images, the canvas and a context, [generateDifferenceImage]
    runs the handler at threshold 30; without one of them it does nothing. *)
Lemma generateDifferenceImage_runs_handler
    (composite paint : Canvas -> ImageData -> list Z)
    (canvas : Canvas) (b a : ImageData) :
  generateDifferenceImage true composite paint (Some b) (Some a) (Some canvas)
  = Some (afterImg_onload true composite paint 30 canvas b a).
Proof. reflexivity. Qed.

Lemma generateDifferenceImage_guards (has2d : bool)
    (composite paint : Canvas -> ImageData -> list Z)
    (beforeImage afterImage : option ImageData) (canvasRef : option Canvas) :
  beforeImage = None \/ afterImage = None \/ canvasRef = None
  \/ has2d = false ->
  generateDifferenceImage has2d composite paint beforeImage afterImage canvasRef
  = None.
Proof.
  unfold generateDifferenceImage.
  destruct beforeImage, afterImage, canvasRef, has2d; try reflexivity.
  intros [H | [H | [H | H]]]; discriminate.
Qed.

(** ** Further facts about the loop *)

(** An iteration depends on the before buffer through the guard only, and
    on the after buffer through the guard and the four entries it copies. *)
Lemma loopBody_ext t bd bd' ad ad' i st :
  pixelChanged t bd ad i = pixelChanged t bd' ad' i ->
  (forall c, c < 4 -> ad !! (i + c) = ad' !! (i + c)) ->
  loopBody t bd ad i st = loopBody t bd' ad' i st.
Proof.
  intros Hguard Hread. destruct st as [d k]. unfold loopBody.
  rewrite <- Hguard.
  pose proof (Hread 0) as H0. rewrite Nat.add_0_r in H0.
  rewrite <- H0, <- !Hread by lia. reflexivity.
Qed.

Lemma scan_ext t bd bd' ad ad' n st :
  (forall p, p < n ->
     pixelChanged t bd ad (4 * p) = pixelChanged t bd' ad' (4 * p)
     /\ forall c, c < 4 -> ad !! (4 * p + c) = ad' !! (4 * p + c)) ->
  scan t bd ad n st = scan t bd' ad' n st.
Proof.
  induction n as [|n IH]; intros Hsame; [reflexivity|].
  rewrite !scan_S, IH by (intros p Hp; apply Hsame; lia).
  destruct (Hsame n) as [Hguard Hread]; [lia|].
  by apply loopBody_ext.
Qed.

(** The guard reads entries [i], [i + 1] and [i + 2] of each buffer. *)
Lemma pixelChanged_ext t bd bd' ad ad' i :
  (forall c, c < 3 -> bd !! (i + c) = bd' !! (i + c)) ->
  (forall c, c < 3 -> ad !! (i + c) = ad' !! (i + c)) ->
  pixelChanged t bd ad i = pixelChanged t bd' ad' i.
Proof.
  intros Hb Ha. unfold pixelChanged, rDiff, gDiff, bDiff.
  pose proof (Hb 0) as Hb0. pose proof (Ha 0) as Ha0.
  rewrite Nat.add_0_r in Hb0, Ha0.
  rewrite Hb0, Ha0, !Hb, !Ha by lia. reflexivity.
Qed.

Lemma countChanged_zero t bd ad n :
  countChanged t bd ad n = 0 ->
  forall p, p < n -> pixelChanged t bd ad (4 * p) = false.
Proof.
  induction n as [|n IH]; cbn [countChanged]; intros Hzero p Hp; [lia|].
  destruct (pixelChanged t bd ad (4 * n)) eqn:Hn; rewrite ?Hn in Hzero; [lia|].
  destruct (decide (p = n)) as [->|Hne]; [exact Hn|].
  apply IH; lia.
Qed.

Lemma countChanged_full t bd ad n :
  countChanged t bd ad n = n ->
  forall p, p < n -> pixelChanged t bd ad (4 * p) = true.
Proof.
  induction n as [|n IH]; cbn [countChanged]; intros Hfull p Hp; [lia|].
  pose proof (countChanged_le t bd ad n) as Hle.
  destruct (pixelChanged t bd ad (4 * n)) eqn:Hn; rewrite ?Hn in Hfull; [|lia].
  destruct (decide (p = n)) as [->|Hne]; [exact Hn|].
  apply IH; lia.
Qed.

Lemma toUint8Clamp_range v : (0 <= toUint8Clamp v <= 255)%Z.
Proof. destruct v as [z|]; simpl; lia. Qed.

Lemma flagColor_range c : (0 <= nth c flagColor 0 <= 255)%Z.
Proof.
  unfold flagColor.
  destruct c as [|[|[|[|[|c]]]]]; simpl; lia.
Qed.

(** Every entry of the overlay is a byte, whatever the after buffer holds. *)
Lemma scanned_bytes t b a :
  sizedb b = true -> bytesb (scanned t b a).1 = true.
Proof.
  intros Hsz. unfold bytesb. apply forallb_forall. intros x Hin.
  apply list_elem_of_In, list_elem_of_lookup in Hin as [j Hj].
  pose proof (lookup_lt_Some _ _ _ Hj) as Hlt.
  rewrite scanned_length in Hlt.
  pose proof (Nat.div_mod_eq j 4) as Hdm.
  pose proof (Nat.mod_upper_bound j 4) as Hmod.
  rewrite Hdm in Hj.
  rewrite scanned_lookup in Hj by (done || lia).
  apply (inj Some) in Hj. subst x.
  pose proof (toUint8Clamp_range (data a !! (4 * (j / 4) + j mod 4))).
  pose proof (flagColor_range (j mod 4)).
  destruct (pixelChanged t (data b) (data a) (4 * (j / 4)));
    apply andb_true_iff; split; apply Z.leb_le; lia.
Qed.

(** ** Further properties of the handler *)

(** X1. The overlay is a well-formed image whatever the after buffer
    holds: four entries per pixel of the grid, each of them a byte. *)
Theorem X1_overlay_well_formed
    (composite paint : Canvas -> ImageData -> list Z) (t : Z)
    (canvas : Canvas) (b a : ImageData) :
  emptyb b = false -> emptyb a = false -> sizedb b = true ->
  exists c r,
    afterImg_onload true composite paint t canvas b a = Returned (c, r)
    /\ wfb (diffData r) = true.
Proof.
  intros Hb Ha Hsz.
  destruct (onload_returned composite paint t canvas b a Hb Ha)
    as (c & Hrun & _).
  exists c, (resultOf t b a). split; [exact Hrun|].
  unfold wfb, sizedb. cbn [resultOf diffData data width height].
  rewrite scanned_length, Nat.eqb_refl. by apply scanned_bytes.
Qed.

Lemma X1_witness :
  emptyb grey1x1 = false /\ emptyb rawImage = false /\ sizedb grey1x1 = true
  /\ exists c r,
       afterImg_onload true noBlend overwrite 30 staleCanvas grey1x1 rawImage
       = Returned (c, r)
       /\ wfb (diffData r) = true.
Proof.
  split; [reflexivity|]. split; [reflexivity|]. split; [reflexivity|].
  apply (X1_overlay_well_formed noBlend overwrite 30 staleCanvas
           grey1x1 rawImage); reflexivity.
Defined.

(** X2. The handler returns a result exactly when a 2D context is
    available and neither image has a zero width or height. *)
Theorem X2_returns_iff (has2d : bool)
    (composite paint : Canvas -> ImageData -> list Z) (t : Z)
    (canvas : Canvas) (b a : ImageData) :
  (exists c r,
     afterImg_onload has2d composite paint t canvas b a = Returned (c, r))
  <-> has2d = true /\ emptyb b = false /\ emptyb a = false.
Proof.
  split.
  - intros (c & r & Hrun).
    destruct has2d; [|rewrite onload_no_context in Hrun; discriminate].
    destruct (emptyb b) eqn:Hb.
    { rewrite onload_thrown in Hrun by (left; exact Hb). discriminate. }
    destruct (emptyb a) eqn:Ha.
    { rewrite onload_thrown in Hrun by (right; exact Ha). discriminate. }
    done.
  - intros (-> & Hb & Ha).
    destruct (onload_returned composite paint t canvas b a Hb Ha)
      as (c & Hrun & _).
    eauto.
Qed.

(** X3. On well-formed images of equal dimensions, a count of zero means
    that the overlay is the after image itself. *)
Theorem X3_no_change_overlay_is_after
    (composite paint : Canvas -> ImageData -> list Z) (t : Z)
    (canvas : Canvas) (b a : ImageData) :
  emptyb b = false ->
  wfb b = true -> wfb a = true ->
  width a = width b -> height a = height b ->
  exists c r,
    afterImg_onload true composite paint t canvas b a = Returned (c, r)
    /\ (totalChangedPixels r = 0 -> diffData r = a).
Proof.
  intros Hb Hwb Hwa Hw Hh.
  assert (emptyb a = false) as Ha.
  { unfold emptyb in *. by rewrite Hw, Hh. }
  apply andb_true_iff in Hwb as [Hsb _].
  apply andb_true_iff in Hwa as [Hsa Hbytes].
  destruct (onload_returned composite paint t canvas b a Hb Ha)
    as (c & Hrun & _).
  exists c, (resultOf t b a). split; [exact Hrun|].
  cbn [resultOf totalChangedPixels diffData]. rewrite scanned_count.
  rewrite (sizedb_iterations b Hsb). intros Hzero.
  assert ((scanned t b a).1 = data a) as ->.
  { pose proof Hsa as Hlen. unfold sizedb in Hlen. apply Nat.eqb_eq in Hlen.
    rewrite Hw, Hh in Hlen.
    apply (list_eq_same_length _ _ (4 * (width b * height b)));
      [exact Hlen|apply scanned_length|].
    intros j x y Hj Hx Hy.
    pose proof (Nat.div_mod_eq j 4) as Hdm.
    pose proof (Nat.mod_upper_bound j 4) as Hmod.
    rewrite Hdm in Hx, Hy.
    rewrite scanned_lookup in Hx by (done || lia).
    rewrite (countChanged_zero _ _ _ _ Hzero) in Hx by lia.
    rewrite Hy in Hx. rewrite (bytesb_lookup _ _ _ Hbytes Hy) in Hx.
    congruence. }
  rewrite <- Hw, <- Hh. by destruct a.
Qed.

Lemma X3_witness :
  emptyb (img1x1 100 7 7 255) = false
  /\ wfb (img1x1 100 7 7 255) = true /\ wfb (img1x1 130 7 7 0) = true
  /\ width (img1x1 130 7 7 0) = width (img1x1 100 7 7 255)
  /\ height (img1x1 130 7 7 0) = height (img1x1 100 7 7 255)
  /\ exists c r,
       afterImg_onload true noBlend overwrite 30 staleCanvas
         (img1x1 100 7 7 255) (img1x1 130 7 7 0) = Returned (c, r)
       /\ (totalChangedPixels r = 0 -> diffData r = img1x1 130 7 7 0).
Proof.
  split; [reflexivity|]. split; [reflexivity|]. split; [reflexivity|].
  split; [reflexivity|]. split; [reflexivity|].
  apply (X3_no_change_overlay_is_after noBlend overwrite 30 staleCanvas
           (img1x1 100 7 7 255) (img1x1 130 7 7 0)); reflexivity.
Defined.

(** X4. When the count reaches the number of pixels of the grid, every
    pixel of the overlay is the flag colour. *)
Theorem X4_all_changed_overlay_is_flag
    (composite paint : Canvas -> ImageData -> list Z) (t : Z)
    (canvas : Canvas) (b a : ImageData) :
  emptyb b = false -> emptyb a = false -> sizedb b = true ->
  exists c r,
    afterImg_onload true composite paint t canvas b a = Returned (c, r)
    /\ (totalChangedPixels r = totalPixels r ->
        forall p, p < width b * height b ->
                  pixelAt (data (diffData r)) p = Some (255, 0, 0, 128)%Z).
Proof.
  intros Hb Ha Hsz.
  destruct (onload_returned composite paint t canvas b a Hb Ha)
    as (c & Hrun & _).
  exists c, (resultOf t b a). split; [exact Hrun|].
  cbn [resultOf totalChangedPixels totalPixels diffData data].
  rewrite scanned_count, (sizedb_iterations b Hsz). intros Hfull p Hp.
  rewrite (scanned_pixelAt t b a p Hsz Hp).
  by rewrite (countChanged_full _ _ _ _ Hfull p Hp).
Qed.

Lemma X4_witness :
  emptyb dark2x2 = false /\ emptyb bright2x2 = false /\ sizedb dark2x2 = true
  /\ exists c r,
       afterImg_onload true noBlend overwrite 30 staleCanvas dark2x2 bright2x2
       = Returned (c, r)
       /\ (totalChangedPixels r = totalPixels r ->
           forall p, p < width dark2x2 * height dark2x2 ->
                     pixelAt (data (diffData r)) p = Some (255, 0, 0, 128)%Z).
Proof.
  split; [reflexivity|]. split; [reflexivity|]. split; [reflexivity|].
  apply (X4_all_changed_overlay_is_flag noBlend overwrite 30 staleCanvas
           dark2x2 bright2x2); reflexivity.
Defined.

Lemma mod4_channel p c : c < 4 -> (4 * p + c) mod 4 = c.
Proof.
  intros Hc. rewrite Nat.add_comm, Nat.mul_comm.
  rewrite Nat.Div0.mod_add. by apply Nat.mod_small.
Qed.

Lemma sameColour_pixelChanged t bd bd' ad p :
  sameColour bd bd' ->
  pixelChanged t bd ad (4 * p) = pixelChanged t bd' ad (4 * p).
Proof.
  intros [_ Hsame]. apply pixelChanged_ext; [|done].
  intros c Hc. apply Hsame. rewrite mod4_channel by lia. lia.
Qed.

(** X5. The alpha samples of the before image have no influence at all:
    two before images that differ in alpha only give the same overlay, the
    same count and the same pixel total. *)
Theorem X5_before_alpha_ignored
    (composite paint : Canvas -> ImageData -> list Z) (t : Z)
    (canvas : Canvas) (b b' a : ImageData) :
  emptyb b = false -> emptyb a = false ->
  width b' = width b -> height b' = height b ->
  sameColour (data b) (data b') ->
  exists c c' r,
    afterImg_onload true composite paint t canvas b a = Returned (c, r)
    /\ afterImg_onload true composite paint t canvas b' a = Returned (c', r).
Proof.
  intros Hb Ha Hw Hh Hsame.
  assert (emptyb b' = false) as Hb'.
  { unfold emptyb in *. by rewrite Hw, Hh. }
  destruct (onload_returned composite paint t canvas b a Hb Ha)
    as (c & Hrun & _).
  destruct (onload_returned composite paint t canvas b' a Hb' Ha)
    as (c' & Hrun' & _).
  exists c, c', (resultOf t b a). split; [exact Hrun|].
  rewrite Hrun'. do 2 f_equal.
  unfold resultOf, scanned. rewrite Hw, Hh.
  destruct Hsame as [Hlen Hsame]. rewrite <- Hlen.
  rewrite (scan_ext t (data b') (data b) (data a) (data a)); [reflexivity|].
  intros p _. split; [|done].
  symmetry. by apply sameColour_pixelChanged.
Qed.

Lemma X5_witness :
  emptyb grey1x1 = false /\ emptyb (img1x1 100 7 7 255) = false
  /\ width greyClear1x1 = width grey1x1
  /\ height greyClear1x1 = height grey1x1
  /\ sameColour (data grey1x1) (data greyClear1x1)
  /\ exists c c' r,
       afterImg_onload true noBlend overwrite 30 staleCanvas
         grey1x1 (img1x1 100 7 7 255) = Returned (c, r)
       /\ afterImg_onload true noBlend overwrite 30 staleCanvas
            greyClear1x1 (img1x1 100 7 7 255) = Returned (c', r).
Proof.
  assert (sameColour (data grey1x1) (data greyClear1x1)) as Hsame.
  { split; [reflexivity|]. intros j Hj.
    destruct j as [|[|[|[|j]]]]; try reflexivity.
    exfalso. apply Hj. reflexivity. }
  split; [reflexivity|]. split; [reflexivity|]. split; [reflexivity|].
  split; [reflexivity|]. split; [exact Hsame|].
  apply (X5_before_alpha_ignored noBlend overwrite 30 staleCanvas
           grey1x1 greyClear1x1 (img1x1 100 7 7 255));
    first [reflexivity | exact Hsame].
Defined.

(** X6. Entries of the after buffer past the length of the before buffer
    are never used: two after images that agree on that prefix, such as an
    image and the same image with further rows, give the same overlay, the
    same count and the same pixel total. *)
Theorem X6_after_beyond_grid_ignored
    (composite paint : Canvas -> ImageData -> list Z) (t : Z)
    (canvas : Canvas) (b a a' : ImageData) :
  emptyb b = false -> emptyb a = false -> emptyb a' = false ->
  sizedb b = true ->
  take (length (data b)) (data a) = take (length (data b)) (data a') ->
  exists c c' r,
    afterImg_onload true composite paint t canvas b a = Returned (c, r)
    /\ afterImg_onload true composite paint t canvas b a' = Returned (c', r).
Proof.
  intros Hb Ha Ha' Hsz Hprefix.
  destruct (onload_returned composite paint t canvas b a Hb Ha)
    as (c & Hrun & _).
  destruct (onload_returned composite paint t canvas b a' Hb Ha')
    as (c' & Hrun' & _).
  exists c, c', (resultOf t b a). split; [exact Hrun|].
  rewrite Hrun'. do 2 f_equal.
  assert (forall j, j < length (data b) -> data a' !! j = data a !! j)
    as Hagree.
  { intros j Hj.
    rewrite <- (lookup_take_lt (data a') (length (data b)) j Hj).
    rewrite <- (lookup_take_lt (data a) (length (data b)) j Hj).
    by rewrite Hprefix. }
  pose proof Hsz as Hlen. unfold sizedb in Hlen. apply Nat.eqb_eq in Hlen.
  unfold resultOf, scanned.
  rewrite (scan_ext t (data b) (data b) (data a') (data a)); [reflexivity|].
  intros p Hp. rewrite (sizedb_iterations b Hsz) in Hp.
  split.
  - apply pixelChanged_ext; [done|].
    intros k Hk. apply Hagree. lia.
  - intros k Hk. apply Hagree. lia.
Qed.

Lemma X6_witness :
  emptyb grey1x1 = false /\ emptyb (img1x1 200 200 200 255) = false
  /\ emptyb grey1x2 = false /\ sizedb grey1x1 = true
  /\ take (length (data grey1x1)) (data (img1x1 200 200 200 255))
     = take (length (data grey1x1)) (data grey1x2)
  /\ exists c c' r,
       afterImg_onload true noBlend overwrite 30 staleCanvas
         grey1x1 (img1x1 200 200 200 255) = Returned (c, r)
       /\ afterImg_onload true noBlend overwrite 30 staleCanvas
            grey1x1 grey1x2 = Returned (c', r).
Proof.
  split; [reflexivity|]. split; [reflexivity|]. split; [reflexivity|].
  split; [reflexivity|]. split; [reflexivity|].
  apply (X6_after_beyond_grid_ignored noBlend overwrite 30 staleCanvas
           grey1x1 (img1x1 200 200 200 255) grey1x2); reflexivity.
Defined.

(** ** The loop on stacked images *)

Lemma lookup_app_top n (l1 l2 : list Z) j :
  length l1 = 4 * n -> j < 4 * n -> (l1 ++ l2) !! j = l1 !! j.
Proof. intros Hlen Hj. apply lookup_app_l. lia. Qed.

Lemma lookup_app_bottom n (l1 l2 : list Z) j :
  length l1 = 4 * n -> (l1 ++ l2) !! (4 * n + j) = l2 !! j.
Proof.
  intros Hlen. rewrite lookup_app_r by lia.
  f_equal. lia.
Qed.

Section Stacked.

Variable t : Z.
Variables b1 b2 a1 a2 : list Z.
Variable n : nat.
Hypothesis Hb1 : length b1 = 4 * n.
Hypothesis Ha1 : length a1 = 4 * n.

Lemma pixelChanged_app_top p :
  p < n ->
  pixelChanged t (b1 ++ b2) (a1 ++ a2) (4 * p) = pixelChanged t b1 a1 (4 * p).
Proof.
  intros Hp. apply pixelChanged_ext; intros c Hc;
    apply (lookup_app_top n); (done || lia).
Qed.

Lemma pixelChanged_app_bottom q :
  pixelChanged t (b1 ++ b2) (a1 ++ a2) (4 * (n + q))
  = pixelChanged t b2 a2 (4 * q).
Proof.
  unfold pixelChanged, rDiff, gDiff, bDiff.
  replace (4 * (n + q)) with (4 * n + 4 * q) by lia.
  rewrite <- !Nat.add_assoc.
  by rewrite !(lookup_app_bottom n b1), !(lookup_app_bottom n a1).
Qed.

Lemma countChanged_app_top k :
  k <= n ->
  countChanged t (b1 ++ b2) (a1 ++ a2) k = countChanged t b1 a1 k.
Proof.
  induction k as [|k IH]; intros Hk; cbn [countChanged]; [reflexivity|].
  rewrite IH by lia. by rewrite pixelChanged_app_top by lia.
Qed.

Lemma countChanged_app m :
  countChanged t (b1 ++ b2) (a1 ++ a2) (n + m)
  = countChanged t b1 a1 n + countChanged t b2 a2 m.
Proof.
  induction m as [|m IH].
  - rewrite Nat.add_0_r, countChanged_app_top by lia.
    cbn [countChanged]. lia.
  - rewrite Nat.add_succ_r. cbn [countChanged].
    rewrite IH, pixelChanged_app_bottom. lia.
Qed.

End Stacked.

Lemma sizedb_length img :
  sizedb img = true -> length (data img) = 4 * (width img * height img).
Proof. unfold sizedb. apply Nat.eqb_eq. Qed.

Lemma vstack_sizedb top bottom :
  sizedb top = true -> sizedb bottom = true -> width bottom = width top ->
  sizedb (vstack top bottom) = true.
Proof.
  intros Ht Hb Hw. apply sizedb_length in Ht, Hb.
  unfold sizedb, vstack. cbn [data width height].
  apply Nat.eqb_eq. rewrite length_app, Ht, Hb, Hw. lia.
Qed.

Lemma vstack_not_empty top bottom :
  emptyb top = false -> emptyb (vstack top bottom) = false.
Proof.
  unfold emptyb, vstack. cbn [width height].
  rewrite !orb_false_iff, !Nat.eqb_neq. lia.
Qed.

(** The overlay of a stack is the stack of the overlays. *)
Lemma scanned_vstack t tb bb ta ba :
  sizedb tb = true -> sizedb ta = true -> sizedb bb = true ->
  width ta = width tb -> height ta = height tb -> width bb = width tb ->
  (scanned t (vstack tb bb) (vstack ta ba)).1
  = (scanned t tb ta).1 ++ (scanned t bb ba).1.
Proof.
  intros Htb Hta Hbb Hw Hh Hwb.
  pose proof (vstack_sizedb tb bb Htb Hbb Hwb) as Hstack.
  pose proof (sizedb_length tb Htb) as Ltb.
  pose proof (sizedb_length ta Hta) as Lta. rewrite Hw, Hh in Lta.
  set (n := width tb * height tb) in *.
  set (m := width bb * height bb).
  assert (width (vstack tb bb) * height (vstack tb bb) = n + m) as Hgrid.
  { unfold vstack, n, m. cbn [width height]. rewrite Hwb. lia. }
  apply (list_eq_same_length _ _ (4 * (n + m))).
  - rewrite length_app, !scanned_length. fold n m. lia.
  - by rewrite scanned_length, Hgrid.
  - intros j x y Hj Hx Hy.
    pose proof (Nat.div_mod_eq j 4) as Hdm.
    pose proof (Nat.mod_upper_bound j 4) as Hmod.
    set (p := j / 4) in *. set (c := j mod 4) in *.
    rewrite Hdm in Hx.
    rewrite scanned_lookup in Hx by (rewrite ?Hgrid; done || lia).
    cbn [vstack data] in Hx.
    destruct (decide (p < n)) as [Hp|Hp].
    + rewrite lookup_app_l in Hy by (rewrite scanned_length; fold n; lia).
      rewrite Hdm, scanned_lookup in Hy by (done || lia).
      rewrite (pixelChanged_app_top t _ _ _ _ n Ltb Lta p Hp) in Hx.
      rewrite (lookup_app_top n (data ta) (data ba)) in Hx by lia.
      congruence.
    + rewrite lookup_app_r in Hy by (rewrite scanned_length; fold n; lia).
      rewrite scanned_length in Hy. fold n in Hy.
      replace (j - 4 * n) with (4 * (p - n) + c) in Hy by lia.
      rewrite scanned_lookup in Hy by (fold m; done || lia).
      replace p with (n + (p - n)) in Hx by lia.
      rewrite (pixelChanged_app_bottom t _ _ _ _ n Ltb Lta) in Hx.
      replace (4 * (n + (p - n)) + c) with (4 * n + (4 * (p - n) + c))
        in Hx by lia.
      rewrite (lookup_app_bottom n (data ta) (data ba)) in Hx by lia.
      congruence.
Qed.

(** X7. Pixels are classified independently of one another: stacking a
    pair of images of equal dimensions on top of another pair of the same
    width adds the two counts and the two pixel totals, and stacks the two
    overlays. *)
Theorem X7_stacking_adds_counts
    (composite paint : Canvas -> ImageData -> list Z) (t : Z)
    (canvas : Canvas) (tb ta bb ba : ImageData) :
  emptyb tb = false -> emptyb bb = false -> emptyb ba = false ->
  sizedb tb = true -> sizedb ta = true -> sizedb bb = true ->
  width ta = width tb -> height ta = height tb -> width bb = width tb ->
  exists c1 r1 c2 r2 c r,
    afterImg_onload true composite paint t canvas tb ta = Returned (c1, r1)
    /\ afterImg_onload true composite paint t canvas bb ba = Returned (c2, r2)
    /\ afterImg_onload true composite paint t canvas
         (vstack tb bb) (vstack ta ba) = Returned (c, r)
    /\ totalChangedPixels r = totalChangedPixels r1 + totalChangedPixels r2
    /\ totalPixels r = totalPixels r1 + totalPixels r2
    /\ data (diffData r) = data (diffData r1) ++ data (diffData r2).
Proof.
  intros Etb Ebb Eba Htb Hta Hbb Hw Hh Hwb.
  assert (emptyb ta = false) as Eta.
  { unfold emptyb in *. by rewrite Hw, Hh. }
  destruct (onload_returned composite paint t canvas tb ta Etb Eta)
    as (c1 & Hrun1 & _).
  destruct (onload_returned composite paint t canvas bb ba Ebb Eba)
    as (c2 & Hrun2 & _).
  destruct (onload_returned composite paint t canvas
              (vstack tb bb) (vstack ta ba)
              (vstack_not_empty tb bb Etb) (vstack_not_empty ta ba Eta))
    as (c & Hrun & _).
  exists c1, (resultOf t tb ta), c2, (resultOf t bb ba), c,
    (resultOf t (vstack tb bb) (vstack ta ba)).
  split; [exact Hrun1|]. split; [exact Hrun2|]. split; [exact Hrun|].
  pose proof (sizedb_length tb Htb) as Ltb.
  pose proof (sizedb_length ta Hta) as Lta. rewrite Hw, Hh in Lta.
  cbn [resultOf totalChangedPixels totalPixels diffData data].
  split; [|split].
  - rewrite !scanned_count.
    rewrite (sizedb_iterations _ (vstack_sizedb tb bb Htb Hbb Hwb)).
    rewrite (sizedb_iterations tb Htb), (sizedb_iterations bb Hbb).
    cbn [vstack data width height].
    replace (width tb * (height tb + height bb))
      with (width tb * height tb + width bb * height bb)
      by (rewrite Hwb; lia).
    by apply countChanged_app.
  - cbn [vstack width height]. rewrite Hwb. lia.
  - by apply scanned_vstack.
Qed.

Lemma X7_witness :
  emptyb grey2x1 = false /\ emptyb greyMixed2x1 = false
  /\ emptyb flat3x3 = false
  /\ sizedb grey2x1 = true /\ sizedb grey1x1_padded = true
  /\ sizedb greyMixed2x1 = true
  /\ width grey1x1_padded = width grey2x1
  /\ height grey1x1_padded = height grey2x1
  /\ width greyMixed2x1 = width grey2x1
  /\ exists c1 r1 c2 r2 c r,
       afterImg_onload true noBlend overwrite 30 staleCanvas
         grey2x1 grey1x1_padded = Returned (c1, r1)
       /\ afterImg_onload true noBlend overwrite 30 staleCanvas
            greyMixed2x1 flat3x3 = Returned (c2, r2)
       /\ afterImg_onload true noBlend overwrite 30 staleCanvas
            (vstack grey2x1 greyMixed2x1) (vstack grey1x1_padded flat3x3)
          = Returned (c, r)
       /\ totalChangedPixels r = totalChangedPixels r1 + totalChangedPixels r2
       /\ totalPixels r = totalPixels r1 + totalPixels r2
       /\ data (diffData r) = data (diffData r1) ++ data (diffData r2).
Proof.
  do 9 (split; [reflexivity|]).
  apply (X7_stacking_adds_counts noBlend overwrite 30 staleCanvas
           grey2x1 grey1x1_padded greyMixed2x1 flat3x3); reflexivity.
Defined.

(** Pixels past the end of either buffer add nothing to the count. *)
Lemma countChanged_beyond t bd ad k j :
  length ad <= 4 * k \/ length bd <= 4 * k ->
  countChanged t bd ad (k + j) = countChanged t bd ad k.
Proof.
  intros Hlen. induction j as [|j IH].
  - by rewrite Nat.add_0_r.
  - rewrite Nat.add_succ_r. cbn [countChanged]. rewrite IH.
    destruct Hlen as [Hlen|Hlen].
    + rewrite pixelChanged_beyond by lia. lia.
    + rewrite pixelChanged_sym, pixelChanged_beyond by lia. lia.
Qed.

Lemma countChanged_sym_sized t bd ad n m :
  length bd = 4 * n -> length ad = 4 * m ->
  countChanged t bd ad n = countChanged t ad bd m.
Proof.
  intros Hb Ha.
  destruct (le_lt_dec n m) as [Hle|Hlt].
  - replace m with (n + (m - n)) by lia.
    rewrite (countChanged_beyond t ad bd n (m - n)) by lia.
    apply countChanged_sym.
  - replace n with (m + (n - m)) by lia.
    rewrite (countChanged_beyond t bd ad m (n - m)) by lia.
    apply countChanged_sym.
Qed.

(** X8. The count is symmetric in the two images even when their
    dimensions differ: whichever of two non-empty images is taken as the
    before image, the same number of pixels is counted. *)
Theorem X8_count_symmetric_any_dimensions
    (composite paint : Canvas -> ImageData -> list Z) (t : Z)
    (canvas : Canvas) (a b : ImageData) :
  emptyb a = false -> emptyb b = false ->
  sizedb a = true -> sizedb b = true ->
  exists c1 r1 c2 r2,
    afterImg_onload true composite paint t canvas a b = Returned (c1, r1)
    /\ afterImg_onload true composite paint t canvas b a = Returned (c2, r2)
    /\ totalChangedPixels r1 = totalChangedPixels r2.
Proof.
  intros Ha Hb Hsa Hsb.
  destruct (onload_returned composite paint t canvas a b Ha Hb)
    as (c1 & Hrun1 & _).
  destruct (onload_returned composite paint t canvas b a Hb Ha)
    as (c2 & Hrun2 & _).
  exists c1, (resultOf t a b), c2, (resultOf t b a).
  split; [exact Hrun1|]. split; [exact Hrun2|].
  cbn [resultOf totalChangedPixels]. rewrite !scanned_count.
  rewrite (sizedb_iterations a Hsa), (sizedb_iterations b Hsb).
  apply countChanged_sym_sized; by apply sizedb_length.
Qed.

Lemma X8_witness :
  emptyb dark2x2 = false /\ emptyb flat3x3 = false
  /\ sizedb dark2x2 = true /\ sizedb flat3x3 = true
  /\ exists c1 r1 c2 r2,
       afterImg_onload true noBlend overwrite 30 staleCanvas dark2x2 flat3x3
       = Returned (c1, r1)
       /\ afterImg_onload true noBlend overwrite 30 staleCanvas flat3x3 dark2x2
          = Returned (c2, r2)
       /\ totalChangedPixels r1 = totalChangedPixels r2.
Proof.
  do 4 (split; [reflexivity|]).
  apply (X8_count_symmetric_any_dimensions noBlend overwrite 30 staleCanvas
           dark2x2 flat3x3); reflexivity.
Defined.

(** X9. The figures derived from the count are bounded and ordered: the
    percentage lies between 0 and 100, and the water, biodiversity and
    carbon figures, its multiples by 1.5, 1.8 and 2.5, satisfy
    0 <= water <= biodiversity <= carbon <= 250. *)
Theorem X9_impact_figures_bounded
    (composite paint : Canvas -> ImageData -> list Z) (t : Z)
    (canvas : Canvas) (b a : ImageData) :
  emptyb b = false -> emptyb a = false -> wfb b = true ->
  exists c r,
    afterImg_onload true composite paint t canvas b a = Returned (c, r)
    /\ (0 <= deforestationPercentage r <= 100)%Q
    /\ (0 <= waterImpact r)%Q
    /\ (waterImpact r <= biodiversityLoss r)%Q
    /\ (biodiversityLoss r <= carbonImpact r)%Q
    /\ (carbonImpact r <= 250)%Q.
Proof.
  intros Hb Ha Hwb.
  apply andb_true_iff in Hwb as [Hsz _].
  destruct (onload_returned composite paint t canvas b a Hb Ha)
    as (c & Hrun & _).
  exists c, (resultOf t b a). split; [exact Hrun|].
  assert (0 <= changeRatio (resultOf t b a) <= 1)%Q as [Hlo Hhi].
  { unfold changeRatio. cbn [resultOf totalChangedPixels totalPixels].
    apply ratio_bounds; [|by apply emptyb_false_pos].
    rewrite scanned_count, <- (sizedb_iterations b Hsz).
    apply countChanged_le. }
  unfold waterImpact, biodiversityLoss, carbonImpact, deforestationPercentage.
  set (q := changeRatio (resultOf t b a)) in *.
  repeat split; lra.
Qed.

Lemma X9_witness :
  emptyb dark2x2 = false /\ emptyb bright2x2 = false /\ wfb dark2x2 = true
  /\ exists c r,
       afterImg_onload true noBlend overwrite 30 staleCanvas dark2x2 bright2x2
       = Returned (c, r)
       /\ (0 <= deforestationPercentage r <= 100)%Q
       /\ (0 <= waterImpact r)%Q
       /\ (waterImpact r <= biodiversityLoss r)%Q
       /\ (biodiversityLoss r <= carbonImpact r)%Q
       /\ (carbonImpact r <= 250)%Q.
Proof.
  do 3 (split; [reflexivity|]).
  apply (X9_impact_figures_bounded noBlend overwrite 30 staleCanvas
           dark2x2 bright2x2); reflexivity.
Defined.

(** ** Facts about the slider *)

Lemma js_div_pos x y : (0 < y)%Q -> js_div x y = Fin (x / y).
Proof.
  intros Hy. unfold js_div.
  destruct (Qeq_bool y 0) eqn:Hz; [|reflexivity].
  apply Qeq_bool_iff in Hz. lra.
Qed.

Lemma Qdiv_nonneg x y : (0 <= x)%Q -> (0 < y)%Q -> (0 <= x / y)%Q.
Proof.
  intros Hx Hy. apply Qle_shift_div_l; [exact Hy|]. lra.
Qed.

Lemma Qdiv_le_mono x x' y : (x <= x')%Q -> (0 < y)%Q -> (x / y <= x' / y)%Q.
Proof.
  intros Hx Hy. unfold Qdiv. apply Qmult_le_compat_r; [exact Hx|].
  apply Qinv_le_0_compat. lra.
Qed.

(** The two clamps on a finite number. *)
Lemma clamp_finite q :
  exists p, Math_min (Math_max (Fin q) 0) 100 = Fin p
    /\ (0 <= p <= 100)%Q
    /\ (q <= 0 -> p == 0)%Q
    /\ (100 <= q -> p == 100)%Q
    /\ (0 <= q <= 100 -> p == q)%Q.
Proof.
  unfold Math_max, Math_min.
  destruct (Qle_bool q 0) eqn:H0.
  - apply Qle_bool_iff in H0. exists 0%Q.
    split; [reflexivity|]. repeat split; intros; lra.
  - assert (0 < q)%Q as Hpos.
    { apply Qnot_le_lt. intros Hle. apply Qle_bool_iff in Hle. congruence. }
    destruct (Qle_bool q 100) eqn:H100.
    + apply Qle_bool_iff in H100. exists q.
      split; [reflexivity|]. repeat split; intros; lra.
    + assert (100 < q)%Q as Hbig.
      { apply Qnot_le_lt. intros Hle. apply Qle_bool_iff in Hle. congruence. }
      exists 100%Q. split; [reflexivity|]. repeat split; intros; lra.
Qed.

Lemma clamp_mono q q' :
  (q <= q')%Q ->
  lessEq (Math_min (Math_max (Fin q) 0) 100)
         (Math_min (Math_max (Fin q') 0) 100).
Proof.
  intros Hle. unfold Math_max, Math_min, lessEq.
  destruct (Qle_bool q 0) eqn:A; destruct (Qle_bool q' 0) eqn:A';
    try (apply Qle_bool_iff in A); try (apply Qle_bool_iff in A');
    try (assert (0 < q)%Q
           by (apply Qnot_le_lt; intros X; apply Qle_bool_iff in X; congruence));
    try (assert (0 < q')%Q
           by (apply Qnot_le_lt; intros X; apply Qle_bool_iff in X; congruence));
    repeat match goal with
      | |- context [Qle_bool ?u 100] =>
          let B := fresh "B" in
          destruct (Qle_bool u 100) eqn:B;
          [apply Qle_bool_iff in B
          |assert (100 < u)%Q
             by (apply Qnot_le_lt; intros X; apply Qle_bool_iff in X;
                 congruence)]
      end;
    lra.
Qed.

(** X10. Over a container of positive width the slider position is a
    finite number from 0 to 100: 0 for a pointer at or left of the
    container, 100 at or right of it, and in between the pointer's offset
    as a percentage of the width. The previous position plays no part. *)
Theorem X10_slider_clamped (rect : DOMRect) (clientX : Q) (old : jsreal) :
  (0 < rect_width rect)%Q ->
  exists p,
    handleSliderMove (Some rect) clientX old = Fin p
    /\ (0 <= p <= 100)%Q
    /\ (clientX <= rect_left rect -> p == 0)%Q
    /\ (rect_left rect + rect_width rect <= clientX -> p == 100)%Q
    /\ (rect_left rect <= clientX <= rect_left rect + rect_width rect ->
        p == (clientX - rect_left rect) / rect_width rect * 100)%Q.
Proof.
  intros Hw. unfold handleSliderMove.
  rewrite js_div_pos by exact Hw. cbn [js_scale].
  set (d := ((clientX - rect_left rect) / rect_width rect)%Q).
  assert (d * rect_width rect == clientX - rect_left rect)%Q as Hd.
  { unfold d. rewrite Qmult_comm. apply Qmult_div_r. lra. }
  destruct (clamp_finite (d * 100)) as (p & -> & Hrange & Hlow & Hhigh & Hmid).
  exists p. split; [reflexivity|]. split; [exact Hrange|].
  split; [|split].
  - intros Hx. apply Hlow. nra.
  - intros Hx. apply Hhigh. nra.
  - intros Hx. apply Hmid. nra.
Qed.

Lemma X10_witness :
  (0 < rect_width container400)%Q
  /\ exists p,
       handleSliderMove (Some container400) 200 NotANumber = Fin p
       /\ (0 <= p <= 100)%Q
       /\ (200 <= rect_left container400 -> p == 0)%Q
       /\ (rect_left container400 + rect_width container400 <= 200
           -> p == 100)%Q
       /\ (rect_left container400 <= 200
             <= rect_left container400 + rect_width container400 ->
           p == (200 - rect_left container400) / rect_width container400
                * 100)%Q.
Proof.
  split; [reflexivity|].
  apply (X10_slider_clamped container400 200 NotANumber). reflexivity.
Defined.

(** X11. Over a container of zero width the position is 100 for a pointer
    right of its left edge, 0 for a pointer left of it, and [NaN] for a
    pointer exactly on it. *)
Theorem X11_slider_collapsed_container (rect : DOMRect) (clientX : Q)
    (old : jsreal) :
  (rect_width rect == 0)%Q ->
  ((rect_left rect < clientX)%Q ->
   handleSliderMove (Some rect) clientX old = Fin 100)
  /\ ((clientX < rect_left rect)%Q ->
      handleSliderMove (Some rect) clientX old = Fin 0)
  /\ ((clientX == rect_left rect)%Q ->
      handleSliderMove (Some rect) clientX old = NotANumber).
Proof.
  intros Hw. unfold handleSliderMove, js_div.
  apply Qeq_bool_iff in Hw. rewrite Hw.
  split; [|split]; intros Hx.
  - destruct (Qeq_bool (clientX - rect_left rect) 0) eqn:Hz.
    { apply Qeq_bool_iff in Hz. lra. }
    destruct (Qle_bool 0 (clientX - rect_left rect)) eqn:Hs; [reflexivity|].
    assert (0 <= clientX - rect_left rect)%Q as Hle by lra.
    apply Qle_bool_iff in Hle. congruence.
  - destruct (Qeq_bool (clientX - rect_left rect) 0) eqn:Hz.
    { apply Qeq_bool_iff in Hz. lra. }
    destruct (Qle_bool 0 (clientX - rect_left rect)) eqn:Hs; [|reflexivity].
    apply Qle_bool_iff in Hs. lra.
  - assert (clientX - rect_left rect == 0)%Q as Hz by lra.
    apply Qeq_bool_iff in Hz. by rewrite Hz.
Qed.

Lemma X11_witness :
  (rect_width collapsed == 0)%Q
  /\ ((rect_left collapsed < 100)%Q ->
      handleSliderMove (Some collapsed) 100 (Fin 50) = Fin 100)
  /\ ((100 < rect_left collapsed)%Q ->
      handleSliderMove (Some collapsed) 100 (Fin 50) = Fin 0)
  /\ ((100 == rect_left collapsed)%Q ->
      handleSliderMove (Some collapsed) 100 (Fin 50) = NotANumber).
Proof.
  split; [reflexivity|].
  apply (X11_slider_collapsed_container collapsed 100 (Fin 50)). reflexivity.
Defined.

(** X12. Over a container of positive width the position follows the
    pointer: a pointer further right never gives a smaller position. *)
Theorem X12_slider_monotone (rect : DOMRect) (x x' : Q) (old old' : jsreal) :
  (0 < rect_width rect)%Q -> (x <= x')%Q ->
  lessEq (handleSliderMove (Some rect) x old)
         (handleSliderMove (Some rect) x' old').
Proof.
  intros Hw Hx. unfold handleSliderMove.
  rewrite !js_div_pos by exact Hw. cbn [js_scale].
  apply clamp_mono.
  apply Qmult_le_compat_r; [|lra].
  apply Qdiv_le_mono; [lra|exact Hw].
Qed.

Lemma X12_witness :
  (0 < rect_width container400)%Q /\ (150 <= 300)%Q
  /\ lessEq (handleSliderMove (Some container400) 150 (Fin 50))
            (handleSliderMove (Some container400) 300 (Fin 50)).
Proof.
  split; [reflexivity|]. split; [discriminate|].
  apply (X12_slider_monotone container400 150 300 (Fin 50) (Fin 50));
    [reflexivity|discriminate].
Defined.

(** ** Facts about dragging *)

Lemma handleSliderMove_onTrack container clientX old :
  onTrack old ->
  match container with
  | Some rect => (0 < rect_width rect)%Q
  | None => True
  end ->
  onTrack (handleSliderMove container clientX old).
Proof.
  intros Hold Hw. destruct container as [rect|]; [|exact Hold].
  unfold handleSliderMove. rewrite js_div_pos by exact Hw. cbn [js_scale].
  destruct (clamp_finite ((clientX - rect_left rect) / rect_width rect * 100))
    as (p & -> & Hrange & _).
  exact Hrange.
Qed.

(** Dispatching [mousemove] leaves the listeners as they are. *)
Lemma mousemove_dispatch clientX container (l : list nat) ui :
  let ui' := foldl (fun u _ => handleMouseMove clientX container u) ui l in
  mousemoveListeners ui' = mousemoveListeners ui
  /\ mouseupListeners ui' = mouseupListeners ui
  /\ nextListener ui' = nextListener ui
  /\ (l = [] -> sliderPosition ui' = sliderPosition ui)
  /\ (onTrack (sliderPosition ui) ->
      match container with
      | Some rect => (0 < rect_width rect)%Q
      | None => True
      end ->
      onTrack (sliderPosition ui')).
Proof.
  revert ui. induction l as [|id l IH]; intros ui; cbn [foldl].
  - repeat split; auto.
  - destruct (IH (handleMouseMove clientX container ui))
      as (Hm & Hu & Hn & _ & Htrack).
    cbn zeta in *. rewrite Hm, Hu, Hn.
    repeat split; [discriminate|].
    intros Hold Hw. apply Htrack; [|exact Hw].
    by apply handleSliderMove_onTrack.
Qed.

(** Dispatching [mouseup] to the listeners [l] leaves the position alone
    and keeps only listeners of pairs outside [l]. *)
Lemma mouseup_dispatch (l : list nat) ui :
  let ui' := foldl (fun u id => handleMouseUp id u) ui l in
  sliderPosition ui' = sliderPosition ui
  /\ nextListener ui' = nextListener ui
  /\ (forall j, j ∈ mousemoveListeners ui' ->
                j ∈ mousemoveListeners ui /\ j ∉ l)
  /\ (forall j, j ∈ mouseupListeners ui' ->
                j ∈ mouseupListeners ui /\ j ∉ l)
  /\ (mousemoveListeners ui = mouseupListeners ui ->
      mousemoveListeners ui' = mouseupListeners ui').
Proof.
  revert ui. induction l as [|id l IH]; intros ui; cbn [foldl].
  - repeat split; auto; apply not_elem_of_nil.
  - destruct (IH (handleMouseUp id ui)) as (Hp & Hn & Hm & Hu & Heq).
    cbn zeta in *. rewrite Hp, Hn.
    split; [reflexivity|]. split; [reflexivity|].
    split; [|split].
    + intros j Hj. apply Hm in Hj as [Hj Hnot].
      cbn [handleMouseUp mousemoveListeners] in Hj.
      apply list_elem_of_filter in Hj as [Hne Hj].
      split; [exact Hj|]. rewrite elem_of_cons. tauto.
    + intros j Hj. apply Hu in Hj as [Hj Hnot].
      cbn [handleMouseUp mouseupListeners] in Hj.
      apply list_elem_of_filter in Hj as [Hne Hj].
      split; [exact Hj|]. rewrite elem_of_cons. tauto.
    + intros Hsame. apply Heq.
      cbn [handleMouseUp mousemoveListeners mouseupListeners].
      by rewrite Hsame.
Qed.

(** Each pair has both its listeners on the document, or neither. *)
Lemma uiRun_paired events :
  mousemoveListeners (uiRun events) = mouseupListeners (uiRun events).
Proof.
  unfold uiRun.
  induction events as [|ev events IH] using rev_ind; [reflexivity|].
  rewrite foldl_app. cbn [foldl].
  set (ui := foldl uiStep initialUi events) in *.
  destruct ev as [|x c| |ts c]; cbn [uiStep].
  - cbn [handleMouseDown mousemoveListeners mouseupListeners]. by rewrite IH.
  - destruct (mousemove_dispatch x c (mousemoveListeners ui) ui)
      as (Hm & Hu & _).
    cbn zeta in *. by rewrite Hm, Hu.
  - by apply mouseup_dispatch.
  - destruct ts as [|x ts]; [exact IH|]. exact IH.
Qed.

Lemma uiRun_snoc events ev : uiRun (events ++ [ev]) = uiStep (uiRun events) ev.
Proof. unfold uiRun. by rewrite foldl_app. Qed.

(** X13. Releasing the mouse button clears the document: whatever happened
    before, after a [mouseup] no listener of the slider is left, and moving
    the mouse no longer moves the slider. *)
Theorem X13_mouseup_ends_drag (events : list UiEvent) (clientX : Q)
    (container : option DOMRect) :
  let ui := uiRun (events ++ [MouseUp]) in
  mousemoveListeners ui = []
  /\ mouseupListeners ui = []
  /\ sliderPosition ui = sliderPosition (uiRun events)
  /\ sliderPosition (uiStep ui (MouseMove clientX container))
     = sliderPosition ui.
Proof.
  cbn zeta. rewrite uiRun_snoc. cbn [uiStep].
  set (before := uiRun events).
  destruct (mouseup_dispatch (mouseupListeners before) before)
    as (Hp & _ & Hm & Hu & Heq).
  cbn zeta in *.
  set (ui := foldl (fun u id => handleMouseUp id u) before
               (mouseupListeners before)) in *.
  assert (mouseupListeners ui = []) as Hups.
  { apply elem_of_nil_inv. intros j Hj. apply Hu in Hj as [Hin Hout]. done. }
  assert (mousemoveListeners ui = []) as Hmoves.
  { rewrite Heq; [exact Hups|]. apply uiRun_paired. }
  split; [exact Hmoves|]. split; [exact Hups|]. split; [exact Hp|].
  rewrite Hmoves. reflexivity.
Qed.

(** X14. From the initial position 50, and as long as the container has a
    positive width whenever a pointer event finds one, the slider position
    stays a finite number from 0 to 100 through every sequence of mouse and
    touch events. *)
Theorem X14_slider_stays_on_track (events : list UiEvent) :
  Forall measurable events ->
  onTrack (sliderPosition (uiRun events)).
Proof.
  induction events as [|ev events IH] using rev_ind; intros Hall.
  - cbn. lra.
  - apply Forall_app in Hall as [Hall Hev].
    apply Forall_cons in Hev as [Hev _].
    specialize (IH Hall). rewrite uiRun_snoc.
    set (ui := uiRun events) in *.
    destruct ev as [|x c| |ts c]; cbn [uiStep].
    + exact IH.
    + destruct (mousemove_dispatch x c (mousemoveListeners ui) ui)
        as (_ & _ & _ & _ & Htrack).
      apply Htrack; [exact IH|]. destruct c; exact Hev.
    + destruct (mouseup_dispatch (mouseupListeners ui) ui) as (Hp & _).
      cbn zeta in Hp. by rewrite Hp.
    + destruct ts as [|x ts]; [exact IH|].
      cbn [handleTouchMove setSliderPosition sliderPosition].
      apply handleSliderMove_onTrack; [exact IH|]. destruct c; exact Hev.
Qed.

Lemma X14_witness :
  Forall measurable dragTwice
  /\ onTrack (sliderPosition (uiRun dragTwice)).
Proof.
  assert (Forall measurable dragTwice) as Hall.
  { unfold dragTwice. repeat constructor. }
  split; [exact Hall|].
  apply (X14_slider_stays_on_track dragTwice). exact Hall.
Defined.

Lemma handleSliderMove_idem container clientX old :
  handleSliderMove container clientX
    (handleSliderMove container clientX old)
  = handleSliderMove container clientX old.
Proof. by destruct container. Qed.

Lemma mousemove_dispatch_position clientX container (l : list nat) ui :
  l <> [] ->
  sliderPosition
    (foldl (fun u _ => handleMouseMove clientX container u) ui l)
  = handleSliderMove container clientX (sliderPosition ui).
Proof.
  revert ui. induction l as [|id l IH]; intros ui Hne; [done|].
  cbn [foldl]. destruct l as [|id' l]; [reflexivity|].
  rewrite IH by discriminate.
  cbn [handleMouseMove setSliderPosition sliderPosition].
  apply handleSliderMove_idem.
Qed.

(** X15. Once the mouse button is down on the handle, a mouse move puts
    the slider where [handleSliderMove] says, however many pairs of
    listeners earlier presses have left on the document. *)
Theorem X15_drag_moves_slider (events : list UiEvent) (clientX : Q)
    (container : option DOMRect) :
  sliderPosition (uiRun (events ++ [MouseDown; MouseMove clientX container]))
  = handleSliderMove container clientX (sliderPosition (uiRun events)).
Proof.
  replace (events ++ [MouseDown; MouseMove clientX container])
    with ((events ++ [MouseDown]) ++ [MouseMove clientX container])
    by (by rewrite <- app_assoc).
  rewrite !uiRun_snoc. cbn [uiStep].
  rewrite mousemove_dispatch_position; [reflexivity|].
  cbn [handleMouseDown mousemoveListeners].
  intros Hnil. by apply app_eq_nil in Hnil as [_ Hnil].
Qed.

(** ** Facts about submitting *)

(** X16. With both images uploaded, submitting shows the rate
    [random * 30], a number from 0 up to but not including 30 for a draw
    from 0 up to but not including 1, clears the error, ends with [loading]
    off and leaves images, result and impact figures alone. The rate is the
    same for any other pair of uploaded images: it does not depend on them. *)
Theorem X16_submit_rate_from_random_only (st st' : AppState) (random : Q) :
  truthy (beforeImage st) = true -> truthy (afterImage st) = true ->
  truthy (beforeImage st') = true -> truthy (afterImage st') = true ->
  (0 <= random < 1)%Q ->
  handleSubmit st random
  = mkAppState (beforeImage st) (afterImage st) (resultImage st)
      (Some (random * 30)%Q) false None (environmentalImpact st)
  /\ (0 <= random * 30 < 30)%Q
  /\ deforestationRate (handleSubmit st' random)
     = deforestationRate (handleSubmit st random).
Proof.
  intros Hb Ha Hb' Ha' Hrandom.
  unfold handleSubmit. rewrite Hb, Ha, Hb', Ha'. cbn.
  split; [reflexivity|]. split; [lra|reflexivity].
Qed.

Lemma X16_witness :
  truthy (beforeImage bothUploaded) = true
  /\ truthy (afterImage bothUploaded) = true
  /\ truthy (beforeImage (setResultImage bothUploaded (Some "x"%string)))
     = true
  /\ truthy (afterImage (setResultImage bothUploaded (Some "x"%string)))
     = true
  /\ (0 <= 1 # 2 < 1)%Q
  /\ handleSubmit bothUploaded (1 # 2)
     = mkAppState (beforeImage bothUploaded) (afterImage bothUploaded)
         (resultImage bothUploaded) (Some ((1 # 2) * 30)%Q) false None
         (environmentalImpact bothUploaded)
  /\ (0 <= (1 # 2) * 30 < 30)%Q
  /\ deforestationRate
       (handleSubmit (setResultImage bothUploaded (Some "x"%string)) (1 # 2))
     = deforestationRate (handleSubmit bothUploaded (1 # 2)).
Proof.
  do 4 (split; [reflexivity|]).
  assert (0 <= 1 # 2 < 1)%Q as Hrandom by (split; [discriminate|reflexivity]).
  split; [exact Hrandom|].
  apply (X16_submit_rate_from_random_only bothUploaded
           (setResultImage bothUploaded (Some "x"%string)) (1 # 2));
    first [reflexivity | exact Hrandom].
Defined.

(** X17. Submitting does nothing at all while an image is missing, and an
    upload without a file changes nothing; from the initial state, uploads
    to one side only never make a submission take effect. *)
Theorem X17_submit_needs_both_images (st : AppState) (random : Q)
    (files : list (option string)) (type : ImageType) :
  (truthy (beforeImage st) = false \/ truthy (afterImage st) = false ->
   handleSubmit st random = st)
  /\ handleImageUpload None type st = st
  /\ deforestationRate
       (handleSubmit
          (foldl (fun s file => handleImageUpload file type s)
             initialApp files)
          random)
     = None.
Proof.
  split; [|split].
  - unfold handleSubmit. intros [-> | ->]; [reflexivity|].
    by rewrite orb_true_r.
  - reflexivity.
  - assert (forall s,
              (type = type_before -> afterImage s = None)
              /\ (type = type_after -> beforeImage s = None) ->
              deforestationRate s = None ->
              deforestationRate
                (handleSubmit
                   (foldl (fun s file => handleImageUpload file type s) s files)
                   random) = None) as Hgen.
    { induction files as [|file files IH]; intros s Hside Hrate.
      - cbn [foldl]. unfold handleSubmit.
        destruct type; destruct Hside as [H1 H2].
        + rewrite (H1 eq_refl). cbn [truthy negb]. by rewrite orb_true_r.
        + rewrite (H2 eq_refl). exact Hrate.
      - cbn [foldl]. apply IH.
        + destruct file as [url|]; [|exact Hside].
          destruct type; destruct Hside as [H1 H2]; split;
            (discriminate || (intros _; cbn; auto)).
        + destruct file as [url|]; [|exact Hrate].
          destruct type; exact Hrate. }
    apply Hgen; [split; reflexivity|reflexivity].
Qed.

(** X18. A comparison that fails is silent. When an image does not decode
    or has a zero width or height, submitting and then letting the load
    handlers run leaves no error message, no new result image and no new
    impact figures; only the rate is shown. *)
Theorem X18_failed_comparison_is_silent (has2d : bool)
    (composite paint : Canvas -> ImageData -> list Z)
    (toDataURL : Canvas -> string)
    (st : AppState) (random : Q)
    (beforeImg afterImg : option ImageData) (canvasRef : option Canvas) :
  truthy (beforeImage st) = true -> truthy (afterImage st) = true ->
  (forall b a, beforeImg = Some b -> afterImg = Some a ->
               emptyb b = true \/ emptyb a = true) ->
  let st' :=
    imagesLoaded has2d composite paint toDataURL (handleSubmit st random)
      beforeImg afterImg canvasRef in
  error st' = None
  /\ resultImage st' = resultImage st
  /\ environmentalImpact st' = environmentalImpact st
  /\ deforestationRate st' = Some (random * 30)%Q.
Proof.
  intros Hb Ha Hfail.
  assert (imagesLoaded has2d composite paint toDataURL
            (handleSubmit st random) beforeImg afterImg canvasRef
          = handleSubmit st random) as ->.
  { unfold imagesLoaded, generateDifferenceImage.
    destruct beforeImg as [b|], afterImg as [a|], canvasRef as [canvas|],
      has2d; try reflexivity.
    rewrite onload_thrown; [reflexivity|]. by apply Hfail. }
  unfold handleSubmit. rewrite Hb, Ha. cbn. done.
Qed.

Lemma X18_witness :
  truthy (beforeImage bothUploaded) = true
  /\ truthy (afterImage bothUploaded) = true
  /\ (forall b a, Some emptyImage = Some b -> Some grey1x1 = Some a ->
                  emptyb b = true \/ emptyb a = true)
  /\ let st' :=
       imagesLoaded true noBlend overwrite pngOf
         (handleSubmit bothUploaded (1 # 2))
         (Some emptyImage) (Some grey1x1) (Some staleCanvas) in
     error st' = None
     /\ resultImage st' = resultImage bothUploaded
     /\ environmentalImpact st' = environmentalImpact bothUploaded
     /\ deforestationRate st' = Some ((1 # 2) * 30)%Q.
Proof.
  assert (forall b a, Some emptyImage = Some b -> Some grey1x1 = Some a ->
                      emptyb b = true \/ emptyb a = true) as Hfail.
  { intros b a [= <-] _. left. reflexivity. }
  split; [reflexivity|]. split; [reflexivity|]. split; [exact Hfail|].
  apply (X18_failed_comparison_is_silent true noBlend overwrite pngOf
           bothUploaded (1 # 2) (Some emptyImage) (Some grey1x1)
           (Some staleCanvas)); first [reflexivity | exact Hfail].
Defined.

(** X19. A comparison that succeeds fills in the rest. With both images
    uploaded, decoded and not empty, a canvas and a 2D context, submitting
    and then letting the load handlers run ends with the encoded canvas as
    result image and with the impact figures of the result that the handler
    computes at threshold 30; the rate is still [random * 30]. *)
Theorem X19_submit_then_loads
    (composite paint : Canvas -> ImageData -> list Z)
    (toDataURL : Canvas -> string)
    (st : AppState) (random : Q) (b a : ImageData) (canvas : Canvas) :
  truthy (beforeImage st) = true -> truthy (afterImage st) = true ->
  emptyb b = false -> emptyb a = false ->
  exists c r,
    afterImg_onload true composite paint 30 canvas b a = Returned (c, r)
    /\ imagesLoaded true composite paint toDataURL (handleSubmit st random)
         (Some b) (Some a) (Some canvas)
       = mkAppState (beforeImage st) (afterImage st) (Some (toDataURL c))
           (Some (random * 30)%Q) false None
           (Some (carbonImpact r, biodiversityLoss r, waterImpact r)).
Proof.
  intros Hbi Hai Hb Ha.
  destruct (onload_returned composite paint 30 canvas b a Hb Ha)
    as (c & Hrun & _).
  exists c, (resultOf 30 b a). split; [exact Hrun|].
  unfold imagesLoaded, generateDifferenceImage. rewrite Hrun.
  unfold handleSubmit. rewrite Hbi, Hai. reflexivity.
Qed.

Lemma X19_witness :
  truthy (beforeImage bothUploaded) = true
  /\ truthy (afterImage bothUploaded) = true
  /\ emptyb dark2x2 = false /\ emptyb bright2x2 = false
  /\ exists c r,
       afterImg_onload true noBlend overwrite 30 staleCanvas dark2x2 bright2x2
       = Returned (c, r)
       /\ imagesLoaded true noBlend overwrite pngOf
            (handleSubmit bothUploaded (1 # 2))
            (Some dark2x2) (Some bright2x2) (Some staleCanvas)
          = mkAppState (beforeImage bothUploaded) (afterImage bothUploaded)
              (Some (pngOf c)) (Some ((1 # 2) * 30)%Q) false None
              (Some (carbonImpact r, biodiversityLoss r, waterImpact r)).
Proof.
  do 4 (split; [reflexivity|]).
  apply (X19_submit_then_loads noBlend overwrite pngOf bothUploaded (1 # 2)
           dark2x2 bright2x2 staleCanvas); reflexivity.
Defined.
